(** * Slippi Scatter: a shallow embedding of [main.py]

    The program reads a replay (an ordered sequence of frames), reshapes it
    into a table, renders one chart per even row into a scratch directory and
    stitches the charts into an animated GIF.

    Modelling conventions.
    - Python [float] / numpy [float64] values are IEEE-754 binary64 numbers,
      represented by [spec_float] with precision 53 and maximal exponent 1024.
      The product [x * y] is the correctly rounded one.  The power [x ** 2]
      is the C library's [pow(x, 2.0)], whose rounding the language does not
      fix: it is a parameter of the model (class [Platform]).
    - [str] values are [string]s; paths are compared as strings (no
      normalisation, no symbolic links), with [/] as the separator.  Two
      spellings of one path are two paths of the model: statements that
      depend on which file a path names carry the hypothesis that the paths
      involved are written in normal form ([normal_path], [tidy]).
    - The file system is a finite map from paths to files and directories;
      every entry carries its modification time, read from a logical clock
      that advances by one at each write.  A path is a directory when the
      map says so or when some path of the map lies below it.  The
      directories the program writes into are assumed to exist and writes to
      succeed: I/O failures other than reading a missing or malformed file
      and removing a directory are outside the model.  [glob] is modelled
      for directory names without wildcard characters ([literal_dir]).
    - A picture is described by the plotting calls that drew it.  Whether two
      pictures have the same pixels, which the GIF encoder tests on
      consecutive frames, is a parameter of the model (class [Platform]).
    - The replay is what the parser library exposes: frames, their port
      slots, and for each participant the printed position and the damage.
    - A method is a function from the instance and the world to an outcome, the
      updated instance and the updated world: an exception keeps the
      mutations made before it was raised, as in Python. *)

From Stdlib Require Import ZArith Floats.SpecFloat Ascii String.
From stdpp Require Import base tactics option list sorting strings pretty gmap.

Local Open Scope string_scope.
Local Open Scope nat_scope.

(** ** Floating point *)

Definition float : Type := spec_float.

Definition prec : Z := 53.
Definition emax : Z := 1024.

Definition float_mul : float → float → float := SFmul prec emax.

Definition float_zero : float := S754_zero false.

(** Correctly rounded (to nearest, ties to even) quotient of two positive
    integers, and the float denoted by a sign, a decimal mantissa [m] and a
    number [k] of fractional digits: [(-1)^s * m / 10^k]. *)
Definition float_of_ratio (s : bool) (m d : positive) : float :=
  let '(q, e, l) := SFdiv_core_binary prec emax (Zpos m) 0 (Zpos d) 0 in
  binary_round_aux prec emax s q e l.

Definition pow10 (k : nat) : positive := Nat.iter k (Pos.mul 10) 1%positive.

Definition float_of_scaled (s : bool) (m : N) (k : nat) : float :=
  match m with
  | N0 => S754_zero s
  | Npos p => float_of_ratio s p (pow10 k)
  end.

(** ** Strings *)

(** [s.replace(c, '')] for a one-character [c]. *)
Fixpoint remove_char (c : ascii) (s : string) : string :=
  match s with
  | "" => ""
  | String a s' =>
      if Ascii.eqb a c then remove_char c s' else String a (remove_char c s')
  end.

(** [s.split(sep)] for a non-empty [sep]: the separator is searched from the
    left, occurrences do not overlap, and the result always has at least one
    component.  [skip] counts the characters of a matched separator still to
    be dropped, [cur] is the component read so far. *)
Fixpoint split_go (sep : string) (skip : nat) (cur : string) (s : string)
  : list string :=
  match s with
  | "" => [cur]
  | String a s' =>
      match skip with
      | S k => split_go sep k cur s'
      | O =>
          if String.prefix sep s
          then cur :: split_go sep (String.length sep - 1) "" s'
          else split_go sep 0 (cur +:+ String a "") s'
      end
  end.

Definition split (sep : string) (s : string) : list string :=
  split_go sep 0 "" s.

(** [s.startswith(p)] returning the remainder. *)
Fixpoint strip_prefix (p s : string) : option string :=
  match p, s with
  | "", _ => Some s
  | String a p', String b s' =>
      if Ascii.eqb a b then strip_prefix p' s' else None
  | String _ _, "" => None
  end.

Fixpoint ends_with (suffix s : string) : bool :=
  if String.eqb suffix s then true
  else match s with
       | "" => false
       | String _ s' => ends_with suffix s'
       end.

Fixpoint has_char (c : ascii) (s : string) : bool :=
  match s with
  | "" => false
  | String a s' => Ascii.eqb a c || has_char c s'
  end.

(** The newline that ends the progress messages. *)
Definition nl : string := String "010" "".

(** ** Exceptions and outcomes *)

(** The exceptions the built-in operations of the program raise, and
    [Signalled] for an exception raised by a [raise] statement. *)
Inductive exn : Type :=
  | IndexError              (* subscript out of range *)
  | AttributeError          (* attribute of [None] *)
  | ValueError              (* [float] of a malformed string *)
  | TypeError               (* [float] of [None] *)
  | FileNotFoundError       (* opening a path that does not exist *)
  | IsADirectoryError       (* opening or removing a directory (on Linux) *)
  | ParseError              (* [Game] of a file that is not a replay *)
  | UnidentifiedImageError  (* [Image.open] of a file that is not an image *)
  | Signalled (msg : string).


Inductive outcome (A : Type) : Type :=
  | Return (a : A)
  | Raise (e : exn).
Arguments Return {A} a.
Arguments Raise {A} e.

Global Instance outcome_ret : MRet outcome := λ A a, Return a.
Global Instance outcome_bind : MBind outcome := λ A B f m,
  match m with
  | Return a => f a
  | Raise e => Raise e
  end.

Definition raises {A} (m : outcome A) : Prop :=
  match m with Raise _ => True | Return _ => False end.

(** [l[i]] for a non-negative [i]. *)
Definition subscript {A} (l : list A) (i : nat) : outcome A :=
  match l !! i with
  | Some a => Return a
  | None => Raise IndexError
  end.

(** ** The replay, as the parser library exposes it *)

(** [position] is the text [str(...)] gives for the position object;
    [damage] is a float, or [None] in a replay that does not record it. *)
Record Pre := { position : string; damage : option float }.
Record Data := { pre : Pre }.
Record Port := { leader : Data }.
Record Frame := { ports : list (option Port) }.
Record Game := { frames : list Frame }.

(** [float(x)] for a number that may be [None]. *)
Definition float_of_num (x : option float) : outcome float :=
  match x with
  | Some v => Return v
  | None => Raise TypeError
  end.

(** [frame.ports[i]] followed by an attribute access. *)
Definition port (frame : Frame) (i : nat) : outcome Port :=
  p ← subscript (ports frame) i;
  match p with
  | Some p => Return p
  | None => Raise AttributeError
  end.

(** ** The table *)

Record DataFrame := {
  index : list nat;
  P1 : list string;
  P2 : list string;
  P1_x : list float;
  P1_y : list float;
  P2_x : list float;
  P2_y : list float;
  P1_damage : list float;
  P2_damage : list float;
}.

(** [column.iloc[row]]. *)
Definition iloc {A} (column : list A) (row : nat) : outcome A :=
  subscript column row.

(** ** Charts *)

Inductive plot_cmd : Type :=
  | Figure (figsize : nat * nat)
  | Xlim (lo hi : Z)
  | Ylim (lo hi : Z)
  | Axhline (y : Z) (color : string) (alpha : float)
  | Axvline (x : Z) (color : string) (alpha : float)
  | Plot (x y : list float) (linewidth : float) (color : string)
         (alpha : float) (zorder : Z)
  | Scatter (x y s : float) (marker c : string) (alpha : option float)
            (zorder : Z)
  | Title (label : string)
  | TightLayout.

Definition chart : Type := list plot_cmd.

(** ** The platform *)

(** What the program takes from the libraries below it without the language
    fixing it: [float_sq x] is the value of [x ** 2] on a numpy [float64],
    computed by the C library's [pow]; [same_picture c c'] tells whether the
    GIF encoder finds no difference between the pictures drawn by [c] and
    by [c']. *)
Class Platform := {
  float_sq : float → float;
  same_picture : chart → chart → bool;
}.

Global Instance float_eq_dec : EqDecision float.
Proof. solve_decision. Defined.

Global Instance plot_cmd_eq_dec : EqDecision plot_cmd.
Proof. solve_decision. Defined.

(** A platform whose [pow] rounds the square correctly and on which two
    pictures are the same exactly when the same calls drew them. *)
Definition exact_platform : Platform :=
  {| float_sq := λ x, float_mul x x;
     same_picture := λ c c', bool_decide (c = c') |}.

(** The float literals of the source, and [np.e]. *)
Definition lit_0_35 : float := Eval vm_compute in float_of_scaled false 35 2.
Definition lit_0_7 : float := Eval vm_compute in float_of_scaled false 7 1.
Definition lit_3_5 : float := Eval vm_compute in float_of_scaled false 35 1.
Definition lit_150 : float := Eval vm_compute in float_of_scaled false 150 0.
Definition np_e : float :=
  Eval vm_compute in float_of_scaled false 2718281828459045 15.

(** ** The world: files and console *)

Inductive content : Type :=
  | Png (c : chart)
  | Gif (images : list chart) (duration loop : nat)
  | Slp (g : Game)
  | Blob (bytes : string)
  | Directory.

Record file := { mtime : nat; data : content }.

Inductive console_line : Type :=
  | Line (s : string)
  | Describe (d : DataFrame).

Record World := {
  files : gmap string file;
  clock : nat;
  stdout : list console_line;
}.

(** Writing a file stamps it with the current time, which then advances. *)
Definition write_file (path : string) (c : content) (w : World) : World :=
  {| files := <[path := {| mtime := clock w; data := c |}]> (files w);
     clock := S (clock w);
     stdout := stdout w |}.

Definition delete_file (path : string) (w : World) : World :=
  {| files := delete path (files w); clock := clock w; stdout := stdout w |}.

Definition print_line (l : console_line) (w : World) : World :=
  {| files := files w; clock := clock w; stdout := stdout w ++ [l] |}.

(** The paths of the world. *)
Definition all_paths (w : World) : list string :=
  map fst (map_to_list (files w)).

(** [path] lies below [dir]. *)
Definition below (dir path : string) : bool :=
  match strip_prefix (dir +:+ "/") path with
  | Some _ => true
  | None => false
  end.

(** [os.path.isdir(path)]: the world records a directory at [path], or some
    path of the world lies below it. *)
Definition is_dir (w : World) (path : string) : bool :=
  match files w !! path with
  | Some f => match data f with Directory => true | _ => false end
  | None => false
  end
  || existsb (below path) (all_paths w).

(** The name of [path] inside directory [dir]: defined when [path] is
    [dir/name] for a non-empty [name] without separator. *)
Definition name_in (dir path : string) : option string :=
  match strip_prefix (dir +:+ "/") path with
  | Some name =>
      if has_char "/" name || String.eqb name "" then None else Some name
  | None => None
  end.

(** The part of a relative path before its first separator. *)
Fixpoint first_component (s : string) : string :=
  match s with
  | "" => ""
  | String a s' =>
      if Ascii.eqb a "/" then "" else String a (first_component s')
  end.

(** The name of the entry of [dir] through which [path] is reached: of
    [path] itself when it is directly in [dir], of a subdirectory of [dir]
    when it lies deeper. *)
Definition entry_in (dir path : string) : option string :=
  match strip_prefix (dir +:+ "/") path with
  | Some rest =>
      let name := first_component rest in
      if String.eqb name "" then None else Some name
  | None => None
  end.

(** [os.listdir(dir)]: the names of the files and subdirectories of [dir],
    in the order the directory lists them. *)
Definition entries (dir : string) (w : World) : list string :=
  remove_dups (omap (entry_in dir) (all_paths w)).

Definition hidden (name : string) : bool :=
  match name with String "." _ => true | _ => false end.

Definition visible (suffix name : string) : bool :=
  negb (hidden name) && ends_with suffix name.

(** [glob.glob(f"{dir}/*{suffix}")] for a directory name free of wildcard
    characters: the visible entries of [dir], files and subdirectories
    alike, whose name ends with [suffix], each joined to [dir]. *)
Definition glob (dir suffix : string) (w : World) : list string :=
  (λ name, dir +:+ "/" +:+ name)
    <$> filter (λ name, visible suffix name = true) (entries dir w).

(** A directory name that [glob] reads literally. *)
Definition literal_dir (dir : string) : bool :=
  negb (has_char "*" dir || has_char "?" dir || has_char "[" dir).

(** [os.path.getmtime(path)] for a path obtained from [glob].  The time of
    a directory that the world knows only through the paths below it is not
    recorded; it is read as 0. *)
Definition getmtime (w : World) (path : string) : nat :=
  match files w !! path with
  | Some f => mtime f
  | None => 0
  end.

Definition mtime_le (w : World) : relation string :=
  λ p q, getmtime w p ≤ getmtime w q.

Global Instance mtime_le_dec w : RelDecision (mtime_le w) :=
  λ p q, decide (getmtime w p ≤ getmtime w q).

(** [sorted(paths, key=os.path.getmtime)]. *)
Definition sorted_by_mtime (w : World) (paths : list string) : list string :=
  merge_sort (mtime_le w) paths.

(** An opened image is the sequence of its frames: one for a still picture. *)
Definition image : Type := list chart.

(** [Image.open(path)]. *)
Definition image_open (w : World) (path : string) : outcome image :=
  if is_dir w path then Raise IsADirectoryError
  else
    match files w !! path with
    | None => Raise FileNotFoundError
    | Some f =>
        match data f with
        | Png c => Return [c]
        | Gif images _ _ => Return images
        | _ => Raise UnidentifiedImageError
        end
    end.

(** [Game(path)]: the replay stored at [path]. *)
Definition Game_load (w : World) (path : string) : outcome Game :=
  if is_dir w path then Raise IsADirectoryError
  else
    match files w !! path with
    | None => Raise FileNotFoundError
    | Some f =>
        match data f with
        | Slp g => Return g
        | _ => Raise ParseError
        end
    end.

(** ** The instance and its methods *)

Record SlippiScatter := {
  temp_images_dir : string;
  df : option DataFrame;
  game : option Game;
  gif_title : option string;
  figure_size : nat * nat;
  verbose : bool;
}.

(** [__init__], and the default values of its arguments. *)
Definition init (game : option Game) (gif_title : option string)
    (temp_images_dir : string) (figure_size : nat * nat) (verbose : bool)
  : SlippiScatter :=
  {| temp_images_dir := temp_images_dir;
     df := None;
     game := game;
     gif_title := gif_title;
     figure_size := figure_size;
     verbose := verbose |}.

Definition default_temp_images_dir : string := "Temp_images".
Definition default_figure_size : nat * nat := (8, 8).

Record state := { self : SlippiScatter; world : World }.

Definition method (A : Type) : Type := state → outcome A * state.

Global Instance method_ret : MRet method := λ A a st, (Return a, st).
Global Instance method_bind : MBind method := λ A B f m st,
  match m st with
  | (Return a, st') => f a st'
  | (Raise e, st') => (Raise e, st')
  end.

Definition lift {A} (o : outcome A) : method A := λ st, (o, st).
Definition get_self : method SlippiScatter := λ st, (Return (self st), st).
Definition get_world : method World := λ st, (Return (world st), st).
Definition modify_world (f : World → World) : method unit :=
  λ st, (Return (), {| self := self st; world := f (world st) |}).
Definition modify_self (f : SlippiScatter → SlippiScatter) : method unit :=
  λ st, (Return (), {| self := f (self st); world := world st |}).

Definition set_df (d : DataFrame) (s : SlippiScatter) : SlippiScatter :=
  {| temp_images_dir := temp_images_dir s; df := Some d; game := game s;
     gif_title := gif_title s; figure_size := figure_size s;
     verbose := verbose s |}.
Definition set_game_attr (g : Game) (s : SlippiScatter) : SlippiScatter :=
  {| temp_images_dir := temp_images_dir s; df := df s; game := Some g;
     gif_title := gif_title s; figure_size := figure_size s;
     verbose := verbose s |}.
Definition set_verbose (b : bool) (s : SlippiScatter) : SlippiScatter :=
  {| temp_images_dir := temp_images_dir s; df := df s; game := game s;
     gif_title := gif_title s; figure_size := figure_size s;
     verbose := b |}.

(** [print(...)], and [if self.verbose: print(...)]. *)
Definition print (l : console_line) : method unit :=
  modify_world (print_line l).
Definition verbose_print (l : console_line) : method unit :=
  s ← get_self; if verbose s then print l else mret ().

(** [obj.attr] where [obj] may be [None]. *)
Definition attr_of {A} (obj : option A) : outcome A :=
  match obj with
  | Some a => Return a
  | None => Raise AttributeError
  end.

(** [for x in l: body(x)]. *)
Fixpoint for_each {A} (l : list A) (body : A → method unit) : method unit :=
  match l with
  | [] => mret ()
  | x :: l' => body x;; for_each l' body
  end.

(** [str(x)] for an attribute that may be [None]. *)
Definition str_of (x : option string) : string :=
  match x with
  | Some s => s
  | None => "None"
  end.

(** [os.remove(path)]. *)
Definition os_remove (path : string) : method unit :=
  w ← get_world;
  if is_dir w path then lift (Raise IsADirectoryError)
  else
    match files w !! path with
    | None => lift (Raise FileNotFoundError)
    | Some _ => modify_world (delete_file path)
    end.

(** *** [remove_temp_files] *)
Definition remove_temp_files : method unit :=
  w ← get_world;
  let files := glob "Temp_images" "" w in
  for_each files (λ f, os_remove f).

Section Rendering.

Context {platform : Platform}.

(** *** [create_gif] *)
Definition gif_path (s : SlippiScatter) : string :=
  "Output/" +:+ str_of (gif_title s) +:+ ".gif".

(** The frames the GIF encoder writes for a sequence of pictures: a picture
    in which it finds no difference from the last frame written is not
    written as a frame of its own (that frame is shown longer, by an amount
    that depends on the version of the library).  [shown] is the last frame
    written. *)
Fixpoint merge_frames (shown : chart) (pictures : list chart) : list chart :=
  match pictures with
  | [] => [shown]
  | c :: rest =>
      if same_picture shown c then merge_frames shown rest
      else shown :: merge_frames c rest
  end.

Definition gif_frames (pictures : list chart) : list chart :=
  match pictures with
  | [] => []
  | c :: rest => merge_frames c rest
  end.

(** [first.save(path, format="GIF", append_images=rest, save_all=True,
    duration=duration, loop=loop)]: the frames written for the frames of
    [first] and of the images of [rest], in order, with the duration and the
    loop count given to the encoder. *)
Definition gif_of (duration loop : nat) (first : image) (rest : list image)
  : content :=
  Gif (gif_frames (concat (first :: rest))) duration loop.

Definition create_gif : method unit :=
  verbose_print (Line ("Creating GIF..." +:+ nl));;
  s ← get_self;
  w ← get_world;
  let images := glob (temp_images_dir s) ".png" w in
  frames ← lift (mapM (image_open w) (sorted_by_mtime w images));
  verbose_print (Line ("Saving to GIF...please wait " +:+ nl));;
  first ← lift (subscript frames 0);
  modify_world (write_file (gif_path s) (gif_of 30 0 first (drop 1 frames)));;
  verbose_print (Line ("Closing frames..." +:+ nl));;
  remove_temp_files;;
  verbose_print (Line ("Process complete!" +:+ nl)).

(** *** [create_images] *)

(** The area of a damage bubble: [damage ** 2 * np.e]. *)
Definition bubble_area (damage : float) : float :=
  float_mul (float_sq damage) np_e.

(** The plotting calls of one iteration, up to [plt.tight_layout()]. *)
Definition render (figsize : nat * nat) (d : DataFrame) (row : nat)
  : outcome chart :=
  d1 ← iloc (P1_damage d) row;
  let p1_damage := bubble_area d1 in
  d2 ← iloc (P2_damage d) row;
  let p2_damage := bubble_area d2 in
  x1 ← iloc (P1_x d) row;
  y1 ← iloc (P1_y d) row;
  x2 ← iloc (P2_x d) row;
  y2 ← iloc (P2_y d) row;
  let x := [x1; x2] in
  let y := [y1; y2] in
  mret [ Figure figsize;
         Xlim (-180) 180;
         Ylim (-180) 180;
         Axhline 0 "black" lit_0_35;
         Axvline 0 "black" lit_0_35;
         Plot x y lit_3_5 "#7dfaa9" lit_0_7 1;
         Scatter x1 y1 lit_150 "o" "#f689db" None 4;
         Scatter x2 y2 lit_150 "o" "#4d7ff8" None 5;
         Scatter x1 y1 p1_damage "o" "#7de2fb" (Some lit_0_35) 2;
         Scatter x2 y2 p2_damage "o" "#f689db" (Some lit_0_35) 3;
         Title ("Frame " +:+ pretty row);
         TightLayout ].

(** [f"{self.temp_images_dir}/{row}.png"]. *)
Definition image_path (dir : string) (row : nat) : string :=
  dir +:+ "/" +:+ pretty row +:+ ".png".

Definition create_images : method unit :=
  verbose_print (Line ("Creating plots..." +:+ nl));;
  s ← get_self;
  d ← lift (attr_of (df s));
  for_each (index d) (λ row,
    if Nat.odd row then mret ()   (* skip every other frame *)
    else
      s ← get_self;
      c ← lift (render (figure_size s) d row);
      modify_world (write_file (image_path (temp_images_dir s) row) (Png c)));;
  verbose_print (Line ("Plotting complete..." +:+ nl)).

End Rendering.

(** ** [float] of a string *)

(** [float(s)] on plain decimal text, the format in which the parser library
    prints a position ([%.2f]): an optional sign, then [nan], [inf], or
    digits with at most one point.  The value is rounded to the nearest
    binary64 number.  Other spellings [float] accepts (exponents, surrounding
    blanks, underscores) are not read by this function; the methods below
    take the conversion as a parameter and hold for every such function. *)
Definition digit_of (a : ascii) : option N :=
  let n := N_of_ascii a in
  if (48 <=? n)%N && (n <=? 57)%N then Some (n - 48)%N else None.

Fixpoint decimal_go (s : string) (m : N) (k : option nat) (seen : bool)
  : option (N * nat) :=
  match s with
  | "" => if seen then Some (m, default 0 k) else None
  | String a s' =>
      if Ascii.eqb a "."
      then match k with
           | None => decimal_go s' m (Some 0) seen
           | Some _ => None
           end
      else match digit_of a with
           | Some d => decimal_go s' (10 * m + d)%N (S <$> k) true
           | None => None
           end
  end.

Definition float_of_decimal (s : string) : option float :=
  let '(sign, body) :=
    match s with
    | String "-" b => (true, b)
    | String "+" b => (false, b)
    | _ => (false, s)
    end in
  if String.eqb body "nan" then Some S754_nan
  else if String.eqb body "inf" then Some (S754_infinity sign)
  else '(m, k) ← decimal_go body 0 None false;
       Some (float_of_scaled sign m k).

Section Methods.

Context {platform : Platform}.

(** [float(s)] for a string [s]: [None] stands for [ValueError]. *)
Variable py_float : string → option float.

Definition float_of_str (s : string) : outcome float :=
  match py_float s with
  | Some x => Return x
  | None => Raise ValueError
  end.

(** *** [generate_dataframe] *)

(** What one iteration of the loop appends to the four lists. *)
Record appended := {
  a_p1_xy : string;
  a_p2_xy : string;
  a_p1_damage : float;
  a_p2_damage : float;
}.

Definition read_frame (frame : Frame) : outcome appended :=
  p1 ← port frame 2;
  let p1_xy := position (pre (leader p1)) in
  p2 ← port frame 3;
  let p2_xy := position (pre (leader p2)) in
  q1 ← port frame 2;
  p1_damage ← float_of_num (damage (pre (leader q1)));
  q2 ← port frame 3;
  p2_damage ← float_of_num (damage (pre (leader q2)));
  mret {| a_p1_xy := p1_xy; a_p2_xy := p2_xy;
          a_p1_damage := p1_damage; a_p2_damage := p2_damage |}.

(** [x.replace('(', '').replace(')', '')]. *)
Definition clean (x : string) : string :=
  remove_char ")" (remove_char "(" x).

(** [float(x.split(', ')[i])]. *)
Definition component (i : nat) (x : string) : outcome float :=
  c ← subscript (split ", " x) i;
  float_of_str c.

Definition build_dataframe (g : Game) : outcome DataFrame :=
  rows ← mapM read_frame (frames g);
  let p1_xy := a_p1_xy <$> rows in
  let p2_xy := a_p2_xy <$> rows in
  let p1_damage := a_p1_damage <$> rows in
  let p2_damage := a_p2_damage <$> rows in
  let P1 := clean <$> p1_xy in
  let P2 := clean <$> p2_xy in
  P1_x ← mapM (component 0) P1;
  P1_y ← mapM (component 1) P1;
  P2_x ← mapM (component 0) P2;
  P2_y ← mapM (component 1) P2;
  mret {| index := seq 0 (length rows);
          P1 := P1; P2 := P2;
          P1_x := P1_x; P1_y := P1_y; P2_x := P2_x; P2_y := P2_y;
          P1_damage := p1_damage; P2_damage := p2_damage |}.

Definition generate_dataframe : method unit :=
  verbose_print (Line ("Creating dataframe..." +:+ nl));;
  s ← get_self;
  g ← lift (attr_of (game s));
  d ← lift (build_dataframe g);
  modify_self (set_df d);;
  s ← get_self;
  if verbose s
  then print (Describe d);; print (Line ("Dataframe complete..." +:+ nl))
  else mret ().

(** *** [set_game] *)
Definition set_game (slippi_file : string) : method unit :=
  verbose_print (Line ("Setting game: " +:+ slippi_file +:+ " " +:+ nl));;
  w ← get_world;
  g ← lift (Game_load w slippi_file);
  modify_self (set_game_attr g).

(** *** [run_analysis] *)
Definition run_analysis (game_path : string) (verbose_arg : bool)
  : method unit :=
  (if verbose_arg then modify_self (set_verbose true) else mret ());;
  s ← get_self;
  match game s with
  | Some _ => mret ()
  | None =>
      w ← get_world;
      g ← lift (Game_load w game_path);
      modify_self (set_game_attr g)
  end;;
  generate_dataframe;;
  create_images;;
  create_gif.

(** The methods of the class, as a caller invokes them on an instance. *)
Inductive call : Type :=
  | CallCreateGif
  | CallCreateImages
  | CallGenerateDataframe
  | CallRemoveTempFiles
  | CallRunAnalysis (game_path : string) (verbose_arg : bool)
  | CallSetGame (slippi_file : string).

Definition invoke (c : call) : method unit :=
  match c with
  | CallCreateGif => create_gif
  | CallCreateImages => create_images
  | CallGenerateDataframe => generate_dataframe
  | CallRemoveTempFiles => remove_temp_files
  | CallRunAnalysis p v => run_analysis p v
  | CallSetGame f => set_game f
  end.

(** A history of calls on one instance; a call that raises does not stop the
    caller from making the next one. *)
Definition after_call (c : call) (st : state) : state := (invoke c st).2.

Definition after_calls (cs : list call) (st : state) : state :=
  foldl (λ st c, after_call c st) st cs.

(** *** What the extractor accepts *)

(** A position text the extractor reads as the pair [(x, y)]: cleaned of
    brackets, it has at least two components, of which the first two
    convert to floats. *)
Definition reads_as (text : string) (x y : float) : Prop :=
  ∃ c0 c1 rest,
    split ", " (clean text) = c0 :: c1 :: rest
    ∧ py_float c0 = Some x ∧ py_float c1 = Some y.

(** The six numbers the extractor takes from a frame. *)
Definition extracts (frame : Frame) (x1 y1 x2 y2 d1 d2 : float) : Prop :=
  ∃ p1 p2,
    ports frame !! 2 = Some (Some p1) ∧ ports frame !! 3 = Some (Some p2)
    ∧ reads_as (position (pre (leader p1))) x1 y1
    ∧ reads_as (position (pre (leader p2))) x2 y2
    ∧ damage (pre (leader p1)) = Some d1
    ∧ damage (pre (leader p2)) = Some d2.

(** A frame with both participant slots, readable positions and damages. *)
Definition frame_ok (frame : Frame) : Prop :=
  ∃ x1 y1 x2 y2 d1 d2, extracts frame x1 y1 x2 y2 d1 d2.

(** What follows the choice of the game in [run_analysis]. *)
Definition pipeline : method unit :=
  generate_dataframe;; create_images;; create_gif.

(** *** The example at the end of the module *)

Definition example_title : string := "zain_jmook_g4_Shine2022_GFs".
Definition example_replay : string :=
  "Slippi_Input/Stream-Game_20220828T225101.slp".

(** [slsc = SlippiScatter(gif_title=...)] followed by
    [slsc.run_analysis(game=..., verbose=True)], run on a world. *)
Definition script (w : World) : outcome unit * state :=
  let slsc :=
    init None (Some example_title) default_temp_images_dir
      default_figure_size false in
  run_analysis example_replay true {| self := slsc; world := w |}.

End Methods.

(** ** Sample inputs *)

Definition player (text : string) (dmg : float) : option Port :=
  Some {| leader := {| pre := {| position := text; damage := Some dmg |} |} |}.

(** A frame as the parser library gives it: four slots, the two
    participants in slots 2 and 3. *)
Definition frame_of (t1 t2 : string) (d1 d2 : float) : Frame :=
  {| ports := [None; None; player t1 d1; player t2 d2] |}.

Definition lit_50 : float := Eval vm_compute in float_of_scaled false 50 0.

(** Four frames: participant 1 at (0,0) without damage, participant 2 at
    (10,10) with damage 50 at frame 2. *)
Definition game_four : Game :=
  {| frames :=
       [ frame_of "(0.00, 0.00)" "(10.00, 10.00)" float_zero float_zero;
         frame_of "(0.00, 0.00)" "(10.00, 10.00)" float_zero float_zero;
         frame_of "(0.00, 0.00)" "(10.00, 10.00)" float_zero lit_50;
         frame_of "(0.00, 0.00)" "(10.00, 10.00)" float_zero float_zero ] |}.

(** One frame whose first position has three components. *)
Definition game_three_components : Game :=
  {| frames :=
       [ frame_of "(1.00, 2.00, 3.00)" "(10.00, 10.00)"
           float_zero float_zero ] |}.

Definition empty_world : World :=
  {| files := ∅; clock := 0; stdout := [] |}.

(** ** Vocabulary of the statements *)

Section Vocabulary.

Context {platform : Platform}.

Definition state_of (s : SlippiScatter) (w : World) : state :=
  {| self := s; world := w |}.

(** A method that never clears the verbose flag. *)
Definition keeps_verbose {A} (m : method A) : Prop :=
  ∀ st, verbose (self st) = true → verbose (self (m st).2) = true.

(** A method that leaves every attribute of the instance as it was. *)
Definition keeps_self {A} (m : method A) : Prop :=
  ∀ st, self (m st).2 = self st.

(** A non-empty string of decimal digits. *)
Definition is_digit (a : ascii) : bool :=
  match digit_of a with Some _ => true | None => false end.

Fixpoint all_digits (s : string) : bool :=
  match s with
  | "" => true
  | String a s' => is_digit a && all_digits s'
  end.

(** [if self.verbose: print(text)] as a function of the world. *)
Definition say (s : SlippiScatter) (text : string) (w : World) : World :=
  if verbose s then print_line (Line (text +:+ nl)) w else w.

(** [for f in l: os.remove(f)] as a function of the world: how the loop
    ends, and the world it leaves. *)
Fixpoint remove_each (l : list string) (w : World) : outcome unit * World :=
  match l with
  | [] => (Return (), w)
  | p :: l' =>
      if is_dir w p then (Raise IsADirectoryError, w)
      else match files w !! p with
           | None => (Raise FileNotFoundError, w)
           | Some _ => remove_each l' (delete_file p w)
           end
  end.

(** The paths of the world that lie directly in a directory. *)
Definition listdir (dir : string) (w : World) : gset string :=
  filter (λ p, is_Some (name_in dir p)) (dom (files w)).

(** [path] is a file, not a directory. *)
Definition is_file (w : World) (path : string) : bool :=
  negb (is_dir w path) && bool_decide (is_Some (files w !! path)).

(** [path] holds a still picture showing chart [c]. *)
Definition still_at (w : World) (path : string) (c : chart) : Prop :=
  is_dir w path = false ∧ ∃ f, files w !! path = Some f ∧ data f = Png c.

(** A relative path in normal form: no empty component, no [.], no [..]. *)
Definition normal_path (path : string) : bool :=
  forallb
    (λ c, negb (String.eqb c "" || String.eqb c "." || String.eqb c ".."))
    (split "/" path).

(** A world all of whose paths are in normal form. *)
Definition tidy (w : World) : bool := forallb normal_path (all_paths w).

(** The paths the instance works with name what the model takes them to
    name: the temporary directory is a name [glob] reads literally, in
    normal form; the title has no separator, so that the animation is
    written directly in [Output], and the output path is not a directory;
    and every path of the world is in normal form. *)
Definition plainly_named (st : state) : bool :=
  literal_dir (temp_images_dir (self st))
  && normal_path (temp_images_dir (self st))
  && negb (has_char "/" (str_of (gif_title (self st))))
  && negb (is_dir (world st) (gif_path (self st)))
  && tidy (world st).

(** Some visible entry of [Temp_images] is a directory. *)
Definition cleanup_blocked (w : World) : bool :=
  existsb (is_dir w) (glob "Temp_images" "" w).

(** The encoder finds every picture of the sequence different from the one
    before it. *)
Fixpoint no_repeat (pictures : list chart) : bool :=
  match pictures with
  | c :: rest =>
      match rest with
      | c' :: _ => negb (same_picture c c') && no_repeat rest
      | [] => true
      end
  | [] => true
  end.

(** Row [i] of a table. *)
Definition row_is (d : DataFrame) (i : nat) (x1 y1 x2 y2 d1 d2 : float)
  : Prop :=
  P1_x d !! i = Some x1 ∧ P1_y d !! i = Some y1
  ∧ P2_x d !! i = Some x2 ∧ P2_y d !! i = Some y2
  ∧ P1_damage d !! i = Some d1 ∧ P2_damage d !! i = Some d2.

(** A table of [N] rows indexed [0..N-1]. *)
Definition table_shape (N : nat) (d : DataFrame) : Prop :=
  index d = seq 0 N
  ∧ length (P1 d) = N ∧ length (P2 d) = N
  ∧ length (P1_x d) = N ∧ length (P1_y d) = N
  ∧ length (P2_x d) = N ∧ length (P2_y d) = N
  ∧ length (P1_damage d) = N ∧ length (P2_damage d) = N.

(** The body of the loop of [create_images]. *)
Definition render_row (d : DataFrame) (row : nat) : method unit :=
  if Nat.odd row then mret ()
  else
    s ← get_self;
    c ← lift (render (figure_size s) d row);
    modify_world (write_file (image_path (temp_images_dir s) row) (Png c)).

(** What the first [n] iterations of the loop have done to the world. *)
Definition rendered (dir : string) (fs : nat * nat) (d : DataFrame)
    (n : nat) (w w' : World) : Prop :=
  clock w' = clock w + (n + 1) / 2
  ∧ stdout w' = stdout w
  ∧ (∀ row, row < n → Nat.even row = true →
      ∃ c, render fs d row = Return c
           ∧ files w' !! image_path dir row
             = Some {| mtime := clock w + row / 2; data := Png c |})
  ∧ (∀ p, (∀ row, row < n → Nat.even row = true → p ≠ image_path dir row) →
      files w' !! p = files w !! p).

(** The rows that are rendered, and the paths written for them. *)
Definition even_rows (N : nat) : list nat :=
  filter (λ row, Nat.even row = true) (seq 0 N).

Definition written_paths (dir : string) (N : nat) : gset string :=
  list_to_set (image_path dir <$> even_rows N).

(** A method that prints nothing and leaves the flag clear when the
    verbose flag is clear. *)
Definition quiet {A} (m : method A) : Prop :=
  ∀ st, verbose (self st) = false →
    verbose (self (m st).2) = false
    ∧ stdout (world (m st).2) = stdout (world st).

(** A call that does not ask for progress messages. *)
Definition silent_call (c : call) : Prop :=
  match c with
  | CallRunAnalysis _ true => False
  | _ => True
  end.

(** A file that [Image.open] accepts. *)
Definition is_image (f : file) : bool :=
  match data f with
  | Png _ | Gif _ _ _ => true
  | _ => false
  end.

(** [path] holds a file that [Image.open] accepts. *)
Definition is_image_at (w : World) (path : string) : bool :=
  match files w !! path with
  | Some f => is_image f
  | None => false
  end.

(** The exception the loop of [generate_dataframe] raises on a frame, if
    any: a slot out of range, an empty slot, or a missing damage. *)
Definition frame_fault (frame : Frame) : option exn :=
  match ports frame !! 2 with
  | None => Some IndexError
  | Some None => Some AttributeError
  | Some (Some p1) =>
      match ports frame !! 3 with
      | None => Some IndexError
      | Some None => Some AttributeError
      | Some (Some p2) =>
          match damage (pre (leader p1)), damage (pre (leader p2)) with
          | None, _ => Some TypeError
          | Some _, None => Some TypeError
          | Some _, Some _ => None
          end
      end
  end.

(** Two frames with the same participants in slots 2 and 3. *)
Definition same_participants (f1 f2 : Frame) : Prop :=
  ports f1 !! 2 = ports f2 !! 2 ∧ ports f1 !! 3 = ports f2 !! 3.

(** The charts of a list of rows, in order. *)
Definition charts_of (fs : nat * nat) (d : DataFrame) (rows : list nat)
    (charts : list chart) : Prop :=
  Forall2 (λ row c, render fs d row = Return c) rows charts.

End Vocabulary.

(** ** Sample instances and worlds *)

Definition scatter_four : SlippiScatter :=
  init (Some game_four) (Some "match") default_temp_images_dir
    default_figure_size false.

Definition scatter_verbose : SlippiScatter :=
  init (Some game_four) (Some "match") default_temp_images_dir
    default_figure_size true.

Definition scatter_custom_dir : SlippiScatter :=
  init (Some game_four) (Some "match") "Scratch" default_figure_size false.

Definition no_table : DataFrame :=
  {| index := []; P1 := []; P2 := []; P1_x := []; P1_y := []; P2_x := [];
     P2_y := []; P1_damage := []; P2_damage := [] |}.

(** The table and the instance after [generate_dataframe] on [game_four]. *)
Definition table_four : DataFrame :=
  Eval vm_compute in
    match build_dataframe float_of_decimal game_four with
    | Return d => d
    | Raise _ => no_table
    end.

Definition state_four : state :=
  state_of (set_df table_four scatter_four) empty_world.


(** Two stills whose modification times run against their names. *)
Definition chart_zero : chart :=
  Eval vm_compute in
    match @render exact_platform (8, 8) table_four 0 with
    | Return c => c
    | Raise _ => []
    end.

Definition chart_two : chart :=
  Eval vm_compute in
    match @render exact_platform (8, 8) table_four 2 with
    | Return c => c
    | Raise _ => []
    end.

Definition world_two_stills : World :=
  {| files :=
       {[ "Temp_images/0.png" := {| mtime := 5; data := Png chart_zero |};
          "Temp_images/2.png" := {| mtime := 3; data := Png chart_two |} ]};
     clock := 6;
     stdout := [] |}.

Definition state_two_stills : state := state_of scatter_four world_two_stills.



(** A still beside a subdirectory of [Temp_images]. *)
Definition world_nested : World :=
  {| files :=
       {[ "Temp_images/0.png" := {| mtime := 3; data := Png chart_zero |};
          "Temp_images/frames/2.png"
            := {| mtime := 4; data := Png chart_two |} ]};
     clock := 5;
     stdout := [] |}.

(** The replay of the example in its place. *)
Definition world_with_replay : World :=
  {| files := {[ example_replay := {| mtime := 0; data := Slp game_four |} ]};
     clock := 1;
     stdout := [] |}.

(** A replay whose second frame has only two port slots. *)
Definition game_short_frame : Game :=
  {| frames :=
       [ frame_of "(0.00, 0.00)" "(10.00, 10.00)" float_zero float_zero;
         {| ports := [None; None] |} ] |}.

(** [game_four] with the first two slots occupied as well. *)
Definition crowded (frame : Frame) : Frame :=
  {| ports := player "(5.00, 5.00)" lit_50 :: player "(7.00, 7.00)" lit_50
              :: drop 2 (ports frame) |}.

Definition game_four_crowded : Game :=
  {| frames := crowded <$> frames game_four |}.

Definition game_empty : Game := {| frames := [] |}.

(** A replay whose position text has a single component. *)
Definition game_one_component : Game :=
  {| frames :=
       [ frame_of "(1.00)" "(10.00, 10.00)" float_zero float_zero ] |}.

Definition scatter_of (g : Game) : SlippiScatter :=
  init (Some g) (Some "match") default_temp_images_dir default_figure_size
    false.

(** * Properties *)

Local Arguments Nat.div : simpl never.

(** ** The method monad *)

Lemma method_bind_unfold {A B} (m : method A) (f : A → method B) st :
  (m ≫= f) st =
  match m st with
  | (Return a, st') => f a st'
  | (Raise e, st') => (Raise e, st')
  end.
Proof. reflexivity. Qed.

Lemma verbose_print_unfold l st :
  verbose_print l st =
  (Return (),
   {| self := self st;
      world := if verbose (self st) then print_line l (world st)
               else world st |}).
Proof.
  unfold verbose_print. rewrite method_bind_unfold. simpl.
  destruct (verbose (self st)); [reflexivity|]. by destruct st.
Qed.

Lemma os_remove_unfold f st :
  os_remove f st =
  if is_dir (world st) f then (Raise IsADirectoryError, st)
  else match files (world st) !! f with
       | None => (Raise FileNotFoundError, st)
       | Some _ =>
           (Return (),
            {| self := self st; world := delete_file f (world st) |})
       end.
Proof.
  unfold os_remove. rewrite method_bind_unfold. unfold get_world at 1.
  destruct (is_dir (world st) f); [done|].
  by destruct (files (world st) !! f).
Qed.

Lemma for_each_os_remove l st :
  for_each l os_remove st
  = ((remove_each l (world st)).1,
     {| self := self st; world := (remove_each l (world st)).2 |}).
Proof.
  revert st. induction l as [|f l IH]; intros st; simpl.
  - by destruct st.
  - rewrite method_bind_unfold, os_remove_unfold.
    destruct (is_dir (world st) f); [by destruct st|].
    destruct (files (world st) !! f); [|by destruct st].
    by rewrite IH.
Qed.

Lemma remove_temp_files_unfold st :
  remove_temp_files st
  = ((remove_each (glob "Temp_images" "" (world st)) (world st)).1,
     {| self := self st;
        world :=
          (remove_each (glob "Temp_images" "" (world st)) (world st)).2 |}).
Proof.
  unfold remove_temp_files. rewrite method_bind_unfold.
  unfold get_world at 1. apply for_each_os_remove.
Qed.

Ltac msimpl :=
  repeat first
    [ rewrite method_bind_unfold
    | rewrite verbose_print_unfold
    | progress unfold lift, get_self, get_world, modify_world, modify_self,
        print, mret, method_ret
    | progress simpl ].

Create HintDb verbose_db.

Lemma kv_ret {A} (a : A) : keeps_verbose (mret a).
Proof. by intros st H. Qed.

Lemma kv_bind {A B} (m : method A) (f : A → method B) :
  keeps_verbose m → (∀ a, keeps_verbose (f a)) → keeps_verbose (m ≫= f).
Proof.
  intros Hm Hf st H. rewrite method_bind_unfold.
  specialize (Hm st H). destruct (m st) as [[a|e] st']; simpl in *.
  - by apply Hf.
  - done.
Qed.

Lemma kv_lift {A} (o : outcome A) : keeps_verbose (lift o).
Proof. by intros st H. Qed.

Lemma kv_get_self : keeps_verbose get_self.
Proof. by intros st H. Qed.

Lemma kv_get_world : keeps_verbose get_world.
Proof. by intros st H. Qed.

Lemma kv_modify_world f : keeps_verbose (modify_world f).
Proof. by intros st H. Qed.

Lemma kv_modify_self f :
  (∀ s, verbose s = true → verbose (f s) = true) →
  keeps_verbose (modify_self f).
Proof. intros Hf st H. simpl. by apply Hf. Qed.

Lemma kv_print l : keeps_verbose (print l).
Proof. apply kv_modify_world. Qed.

Lemma kv_verbose_print l : keeps_verbose (verbose_print l).
Proof. intros st H. by rewrite verbose_print_unfold. Qed.

Lemma kv_for_each {A} (l : list A) (body : A → method unit) :
  (∀ x, keeps_verbose (body x)) → keeps_verbose (for_each l body).
Proof.
  intros Hb. induction l as [|x l IH]; simpl.
  - apply kv_ret.
  - apply kv_bind; [apply Hb | intros _; apply IH].
Qed.

Lemma kv_if {A} (b : bool) (m1 m2 : method A) :
  keeps_verbose m1 → keeps_verbose m2 → keeps_verbose (if b then m1 else m2).
Proof. by destruct b. Qed.

Global Hint Resolve kv_ret kv_lift kv_get_self kv_get_world kv_modify_world
  kv_print kv_verbose_print kv_if : verbose_db.

Lemma kv_os_remove f : keeps_verbose (os_remove f).
Proof.
  unfold os_remove. apply kv_bind; [apply kv_get_world|intros w].
  destruct (is_dir w f); [apply kv_lift|].
  destruct (files w !! f); [apply kv_modify_world|apply kv_lift].
Qed.

Lemma kv_remove_temp_files : keeps_verbose remove_temp_files.
Proof. intros st Hv. by rewrite remove_temp_files_unfold. Qed.

Ltac kv_step :=
  first [ apply kv_remove_temp_files
        | apply kv_bind; [|intros ?]
        | apply kv_for_each; intros ?
        | apply kv_if
        | apply kv_modify_self; intros ? ?; first [assumption | reflexivity]
        | solve [auto with verbose_db] ].

(** ** Strings and file names *)

Lemma string_length_app (s t : string) :
  String.length (s +:+ t) = String.length s + String.length t.
Proof. induction s as [|a s IH]; simpl; [done|]. by rewrite IH. Qed.

Lemma string_app_inj_r (t s1 s2 : string) : s1 +:+ t = s2 +:+ t → s1 = s2.
Proof.
  revert s2. induction s1 as [|a s1 IH]; intros [|b s2] H.
  - done.
  - apply (f_equal String.length) in H.
    rewrite !string_length_app in H. simpl in H. exfalso; lia.
  - apply (f_equal String.length) in H.
    rewrite !string_length_app in H. simpl in H. exfalso; lia.
  - injection H as -> H. f_equal. by apply IH.
Qed.

Lemma string_app_cons a (s t : string) :
  String a s +:+ t = String a (s +:+ t).
Proof. reflexivity. Qed.

Lemma string_app_nil (t : string) : "" +:+ t = t.
Proof. reflexivity. Qed.

Lemma string_app_assoc (s t u : string) : (s +:+ t) +:+ u = s +:+ t +:+ u.
Proof.
  induction s as [|a s IH]; [done|]. by rewrite !string_app_cons, IH.
Qed.

Lemma strip_prefix_app (p s : string) : strip_prefix p (p +:+ s) = Some s.
Proof.
  induction p as [|a p IH].
  - rewrite string_app_nil. by destruct s.
  - rewrite string_app_cons. simpl. by rewrite Ascii.eqb_refl.
Qed.

Lemma strip_prefix_Some (p s r : string) :
  strip_prefix p s = Some r → s = p +:+ r.
Proof.
  revert s. induction p as [|a p IH]; intros s H.
  - rewrite string_app_nil. destruct s; simpl in H; by simplify_eq.
  - destruct s as [|b s]; [done|]. simpl in H.
    destruct (Ascii.eqb_spec a b) as [->|]; [|done].
    rewrite string_app_cons. f_equal. by apply IH.
Qed.

Lemma ends_with_app (s t : string) : ends_with t (s +:+ t) = true.
Proof.
  induction s as [|a s IH].
  - rewrite string_app_nil. destruct t; simpl; [done|].
    by rewrite Ascii.eqb_refl, String.eqb_refl.
  - rewrite string_app_cons. simpl. rewrite IH.
    by destruct (String.eqb _ _).
Qed.

Lemma has_char_app c (s t : string) :
  has_char c (s +:+ t) = has_char c s || has_char c t.
Proof.
  induction s as [|a s IH]; [done|].
  rewrite string_app_cons. simpl. rewrite IH. by destruct (Ascii.eqb a c).
Qed.

Lemma pretty_N_char_digit x : is_digit (pretty_N_char x) = true.
Proof. unfold pretty_N_char. by repeat case_match. Qed.

Lemma pretty_N_go_digits x s :
  all_digits s = true → all_digits (pretty_N_go x s) = true.
Proof.
  revert s. induction (N.lt_wf_0 x) as [x _ IH]; intros s Hs.
  assert (x = 0 ∨ 0 < x)%N as [->|Hx] by lia.
  - by rewrite pretty_N_go_0.
  - rewrite pretty_N_go_step by done. apply IH.
    + by apply N.div_lt.
    + simpl. by rewrite pretty_N_char_digit.
Qed.

Lemma pretty_N_go_nonempty x s : s ≠ "" → pretty_N_go x s ≠ "".
Proof.
  revert s. induction (N.lt_wf_0 x) as [x _ IH]; intros s Hs.
  assert (x = 0 ∨ 0 < x)%N as [->|Hx] by lia.
  - by rewrite pretty_N_go_0.
  - rewrite pretty_N_go_step by done. apply IH; [by apply N.div_lt|done].
Qed.

Lemma pretty_nat_digits (n : nat) :
  all_digits (pretty n) = true ∧ pretty n ≠ "".
Proof.
  unfold pretty, pretty_nat, pretty, pretty_N.
  case_decide as Hn; [done|]. split.
  - by apply pretty_N_go_digits.
  - assert (0 < N.of_nat n)%N as Hpos by lia.
    rewrite pretty_N_go_step by done. by apply pretty_N_go_nonempty.
Qed.

Lemma all_digits_no_char c (s : string) :
  is_digit c = false → all_digits s = true → has_char c s = false.
Proof.
  intros Hc. induction s as [|a s IH]; simpl; [done|].
  intros [Ha Hs]%andb_true_iff. rewrite (IH Hs).
  destruct (Ascii.eqb_spec a c) as [->|]; [congruence|done].
Qed.

(** The file name of a row is visible inside the directory and is listed
    by the [*.png] pattern. *)
Lemma name_in_image_path dir row :
  name_in dir (image_path dir row) = Some (pretty row +:+ ".png").
Proof.
  unfold name_in, image_path.
  rewrite <-(string_app_assoc dir "/"), strip_prefix_app.
  destruct (pretty_nat_digits row) as [Hd Hne].
  rewrite has_char_app, (all_digits_no_char "/" _ eq_refl Hd). simpl.
  destruct (pretty row) eqn:E; done.
Qed.

Lemma visible_image_name (row : nat) :
  visible ".png" (pretty row +:+ ".png") = true.
Proof.
  unfold visible. rewrite ends_with_app.
  destruct (pretty_nat_digits row) as [Hd Hne].
  destruct (pretty row) as [|a s] eqn:E; [done|]. simpl in *.
  apply andb_true_iff in Hd as [Ha _].
  destruct (Ascii.eqb_spec a ".") as [->|Hn]; [done|].
  unfold hidden. simpl.
  destruct a as [[] [] [] [] [] [] [] []]; try done.
Qed.

Lemma ends_with_nil (s : string) : ends_with "" s = true.
Proof. induction s as [|a s IH]; [done|]. simpl. done. Qed.

Lemma visible_any suffix name :
  visible suffix name = true → visible "" name = true.
Proof.
  unfold visible. intros [-> _]%andb_true_iff. by rewrite ends_with_nil.
Qed.

(** *** Entries of a directory *)

Lemma first_component_no_sep (s : string) :
  has_char "/" (first_component s) = false.
Proof.
  induction s as [|a s IH]; [done|]. simpl.
  destruct (Ascii.eqb a "/") eqn:E; [done|]. simpl. by rewrite E.
Qed.

Lemma first_component_plain (s : string) :
  has_char "/" s = false → first_component s = s.
Proof.
  induction s as [|a s IH]; [done|]. simpl.
  destruct (Ascii.eqb a "/"); [done|]. simpl. intros Hs. by rewrite IH.
Qed.

Lemma first_component_app (s t : string) :
  has_char "/" s = false → first_component (s +:+ "/" +:+ t) = s.
Proof.
  induction s as [|a s IH]; [done|]. rewrite string_app_cons. simpl.
  destruct (Ascii.eqb a "/"); [done|]. simpl. intros Hs. by rewrite IH.
Qed.

Lemma first_component_split (s : string) :
  s = first_component s ∨ ∃ rest, s = first_component s +:+ "/" +:+ rest.
Proof.
  induction s as [|a s IH]; [by left|]. simpl.
  destruct (Ascii.eqb_spec a "/") as [->|Hne].
  - right. by exists s.
  - destruct IH as [IH|[rest IH]].
    + left. by rewrite <-IH.
    + right. exists rest. rewrite string_app_cons. by rewrite <-IH.
Qed.

Lemma below_spec dir path :
  below dir path = true ↔ ∃ rest, path = dir +:+ "/" +:+ rest.
Proof.
  unfold below. split.
  - destruct (strip_prefix _ _) as [rest|] eqn:E; [|done]. intros _.
    exists rest. apply strip_prefix_Some in E. by rewrite string_app_assoc in E.
  - intros [rest ->]. by rewrite <-string_app_assoc, strip_prefix_app.
Qed.

Lemma string_eqb_nil (s : string) : String.eqb s "" = true ↔ s = "".
Proof. by destruct s. Qed.

(** A path reached through the entry [name] of [dir] is that entry or lies
    below it. *)
Lemma entry_in_Some dir path name :
  entry_in dir path = Some name ↔
  name ≠ "" ∧ has_char "/" name = false
  ∧ (path = dir +:+ "/" +:+ name
     ∨ ∃ rest, path = (dir +:+ "/" +:+ name) +:+ "/" +:+ rest).
Proof.
  unfold entry_in. split.
  - destruct (strip_prefix _ _) as [rest|] eqn:E; [|done].
    apply strip_prefix_Some in E. rewrite string_app_assoc in E.
    cbv zeta. destruct (String.eqb (first_component rest) "") eqn:En; [done|].
    intros [= <-]. split; [|split].
    + intros Hn. rewrite Hn in En. done.
    + apply first_component_no_sep.
    + destruct (first_component_split rest) as [Hr|[tl Hr]].
      * left. by rewrite <-Hr.
      * right. exists tl. rewrite !string_app_assoc. by rewrite <-Hr.
  - intros (Hne & Hplain & [->|[rest ->]]).
    + rewrite <-string_app_assoc, strip_prefix_app. cbv zeta.
      rewrite first_component_plain by done.
      destruct (String.eqb name "") eqn:En; [|done].
      by apply string_eqb_nil in En.
    + rewrite !string_app_assoc, <-(string_app_assoc dir "/").
      rewrite strip_prefix_app. cbv zeta.
      rewrite first_component_app by done.
      destruct (String.eqb name "") eqn:En; [|done].
      by apply string_eqb_nil in En.
Qed.

Lemma name_in_Some dir path name :
  name_in dir path = Some name ↔
  name ≠ "" ∧ has_char "/" name = false ∧ path = dir +:+ "/" +:+ name.
Proof.
  unfold name_in. split.
  - destruct (strip_prefix _ _) as [rest|] eqn:E; [|done].
    apply strip_prefix_Some in E. rewrite string_app_assoc in E.
    destruct (has_char "/" rest) eqn:Hc; [done|]. simpl.
    destruct (String.eqb rest "") eqn:En; [done|]. intros [= <-].
    split; [|done]. intros ->. done.
  - intros (Hne & Hplain & ->).
    rewrite <-string_app_assoc, strip_prefix_app, Hplain. simpl.
    destruct (String.eqb name "") eqn:En; [|done].
    by apply string_eqb_nil in En.
Qed.

Lemma entry_in_image_path dir row :
  entry_in dir (image_path dir row) = Some (pretty row +:+ ".png").
Proof.
  pose proof (name_in_image_path dir row) as H.
  apply name_in_Some in H as (Hne & Hplain & Hp).
  apply entry_in_Some. split; [done|]. split; [done|]. by left.
Qed.

Lemma elem_of_all_paths w p : p ∈ all_paths w ↔ is_Some (files w !! p).
Proof.
  unfold all_paths. rewrite list_elem_of_fmap. split.
  - intros ([q f] & -> & Hin). apply elem_of_map_to_list in Hin. by eexists.
  - intros [f Hf]. exists (p, f). split; [done|].
    by apply elem_of_map_to_list.
Qed.

Lemma elem_of_entries dir w name :
  name ∈ entries dir w ↔
  ∃ path, is_Some (files w !! path) ∧ entry_in dir path = Some name.
Proof.
  unfold entries. rewrite elem_of_remove_dups, list_elem_of_omap.
  by setoid_rewrite elem_of_all_paths.
Qed.

Lemma elem_of_glob dir suffix w p :
  p ∈ glob dir suffix w ↔
  ∃ name path,
    p = dir +:+ "/" +:+ name ∧ visible suffix name = true
    ∧ is_Some (files w !! path) ∧ entry_in dir path = Some name.
Proof.
  unfold glob. rewrite list_elem_of_fmap. split.
  - intros (name & -> & [Hv Hin]%list_elem_of_filter).
    apply elem_of_entries in Hin as (path & Hpath & He).
    by exists name, path.
  - intros (name & path & -> & Hv & Hpath & He). exists name.
    split; [done|]. apply list_elem_of_filter. split; [done|].
    apply elem_of_entries. by exists path.
Qed.

Lemma NoDup_glob dir suffix w : NoDup (glob dir suffix w).
Proof.
  unfold glob. apply NoDup_fmap_2.
  - intros x y Hxy. apply (inj (String.app dir)) in Hxy.
    by apply (inj (String.app "/")) in Hxy.
  - apply NoDup_filter, NoDup_remove_dups.
Qed.

Lemma glob_files_eq dir suffix w w' :
  files w = files w' → glob dir suffix w = glob dir suffix w'.
Proof. intros H. unfold glob, entries, all_paths. by rewrite H. Qed.

Lemma is_dir_files_eq w w' p : files w = files w' → is_dir w p = is_dir w' p.
Proof. intros H. unfold is_dir, all_paths. by rewrite H. Qed.

Lemma is_dir_true w p :
  is_dir w p = true ↔
  (∃ f, files w !! p = Some f ∧ data f = Directory)
  ∨ (∃ path, is_Some (files w !! path) ∧ below p path = true).
Proof.
  unfold is_dir. rewrite orb_true_iff, existsb_exists.
  setoid_rewrite <-list_elem_of_In. setoid_rewrite elem_of_all_paths.
  split; (intros [H|H]; [left|by right]).
  - destruct (files w !! p) as [f|]; [|done]. exists f. split; [done|].
    by destruct (data f).
  - destruct H as (f & -> & ->). done.
Qed.

(** An entry that [glob] lists is a file or a directory of the world. *)
Lemma glob_entry dir suffix w p :
  p ∈ glob dir suffix w → is_dir w p = true ∨ is_Some (files w !! p).
Proof.
  intros (name & path & -> & _ & Hpath & He)%elem_of_glob.
  apply entry_in_Some in He as (_ & _ & [->|[rest ->]]); [by right|].
  left. apply is_dir_true. right. eexists. split; [exact Hpath|].
  apply below_spec. by exists rest.
Qed.

(** Two entries of one directory: neither lies below the other. *)
Lemma glob_entries_apart dir suffix w p q :
  p ∈ glob dir suffix w → q ∈ glob dir suffix w → below p q = false.
Proof.
  intros (n & ? & -> & _ & _ & Hn)%elem_of_glob
         (m & ? & -> & _ & _ & Hm)%elem_of_glob.
  apply entry_in_Some in Hn as (_ & _ & _), Hm as (_ & Hm & _).
  destruct (below _ _) eqn:E; [|done].
  apply below_spec in E as [rest E].
  rewrite !string_app_assoc in E.
  apply (inj (String.app dir)) in E. apply (inj (String.app "/")) in E.
  rewrite E, !has_char_app in Hm. simpl in Hm.
  by rewrite orb_true_r in Hm.
Qed.

(** A file directly in a directory is listed under its own path. *)
Lemma glob_lists_file dir suffix w name :
  name ≠ "" → has_char "/" name = false → visible suffix name = true →
  is_Some (files w !! (dir +:+ "/" +:+ name)) →
  dir +:+ "/" +:+ name ∈ glob dir suffix w.
Proof.
  intros Hne Hplain Hv Hf. apply elem_of_glob.
  exists name, (dir +:+ "/" +:+ name). repeat split; try done.
  apply entry_in_Some. split; [done|]. split; [done|]. by left.
Qed.

Lemma image_path_inj dir : Inj (=) (=) (image_path dir).
Proof.
  intros i j H. unfold image_path in H.
  apply (inj (String.app dir)) in H.
  apply (inj (String.app "/")) in H.
  apply string_app_inj_r in H. by apply (inj pretty) in H.
Qed.

Section Properties.

Context {platform : Platform}.

Variable py_float : string → option float.

Lemma kv_create_gif : keeps_verbose create_gif.
Proof.
  unfold create_gif. repeat kv_step.
Qed.

Lemma kv_create_images : keeps_verbose create_images.
Proof. unfold create_images. repeat kv_step. Qed.

Lemma kv_generate_dataframe : keeps_verbose (generate_dataframe py_float).
Proof. unfold generate_dataframe. repeat kv_step. Qed.

Lemma kv_set_game f : keeps_verbose (set_game f).
Proof. unfold set_game. repeat kv_step. Qed.

Lemma kv_run_analysis p v : keeps_verbose (run_analysis py_float p v).
Proof.
  unfold run_analysis. repeat kv_step;
    try (destruct (game _); repeat kv_step);
    auto using kv_generate_dataframe, kv_create_images, kv_create_gif.
Qed.

Lemma kv_invoke c : keeps_verbose (invoke py_float c).
Proof.
  destruct c; simpl;
    auto using kv_create_gif, kv_create_images, kv_generate_dataframe,
      kv_remove_temp_files, kv_run_analysis, kv_set_game.
Qed.

Lemma after_calls_app cs1 cs2 st :
  after_calls py_float (cs1 ++ cs2) st
  = after_calls py_float cs2 (after_calls py_float cs1 st).
Proof. unfold after_calls. apply foldl_app. Qed.

Lemma run_analysis_verbose_true p st :
  run_analysis py_float p true st
  = run_analysis py_float p false
      {| self := set_verbose true (self st); world := world st |}.
Proof. reflexivity. Qed.

(** ** The verbose flag *)

(** C10. The verbose flag is monotone.  On an instance whose flag is set,
    [run_analysis] called with [verbose=False] leaves it set, whether the call
    returns or raises, and so does every sequence of method calls; a call of
    [run_analysis] with [verbose=True] sets it whatever it was, and
    [__init__] stores the flag it is given. *)
Theorem verbose_is_monotone (st : state) :
  verbose (self st) = true →
  (∀ p, verbose (self (run_analysis py_float p false st).2) = true)
  ∧ (∀ cs, verbose (self (after_calls py_float cs st)) = true)
  ∧ (∀ p st0, verbose (self (run_analysis py_float p true st0).2) = true)
  ∧ (∀ g t dir size, verbose (init g t dir size true) = true).
Proof.
  intros H. repeat split.
  - intros p. by apply kv_run_analysis.
  - intros cs. revert st H. induction cs as [|c cs IH]; intros st H; [done|].
    simpl. apply IH. unfold after_call. by apply kv_invoke.
  - intros p st0. rewrite run_analysis_verbose_true. by apply kv_run_analysis.
Qed.

(** ** Which replay a run analyses *)

Lemma generate_dataframe_unfold st :
  generate_dataframe py_float st =
  let w1 := if verbose (self st)
            then print_line (Line ("Creating dataframe..." +:+ nl)) (world st)
            else world st in
  match game (self st) with
  | None => (Raise AttributeError, {| self := self st; world := w1 |})
  | Some g =>
      match build_dataframe py_float g with
      | Raise e => (Raise e, {| self := self st; world := w1 |})
      | Return d =>
          (Return (),
           {| self := set_df d (self st);
              world :=
                if verbose (self st)
                then print_line (Line ("Dataframe complete..." +:+ nl))
                       (print_line (Describe d) w1)
                else w1 |})
      end
  end.
Proof.
  unfold generate_dataframe. msimpl.
  destruct (game (self st)) as [g|] eqn:Hg; msimpl; [|done].
  destruct (build_dataframe py_float g) as [d|e]; msimpl; [|done].
  destruct (verbose (self st)); by msimpl.
Qed.

Lemma generate_dataframe_game st :
  game (self (generate_dataframe py_float st).2) = game (self st).
Proof.
  rewrite generate_dataframe_unfold. simpl.
  destruct (game (self st)) as [g|] eqn:Hg; simpl; [|done].
  by destruct (build_dataframe py_float g).
Qed.

Lemma ks_ret {A} (a : A) : keeps_self (mret a).
Proof. by intros st. Qed.

Lemma ks_bind {A B} (m : method A) (f : A → method B) :
  keeps_self m → (∀ a, keeps_self (f a)) → keeps_self (m ≫= f).
Proof.
  intros Hm Hf st. rewrite method_bind_unfold.
  specialize (Hm st). destruct (m st) as [[a|e] st']; simpl in *.
  - by rewrite Hf.
  - done.
Qed.

Lemma ks_lift {A} (o : outcome A) : keeps_self (lift o).
Proof. by intros st. Qed.

Lemma ks_get_self : keeps_self get_self.
Proof. by intros st. Qed.

Lemma ks_get_world : keeps_self get_world.
Proof. by intros st. Qed.

Lemma ks_modify_world f : keeps_self (modify_world f).
Proof. by intros st. Qed.

Lemma ks_verbose_print l : keeps_self (verbose_print l).
Proof. intros st. by rewrite verbose_print_unfold. Qed.

Lemma ks_for_each {A} (l : list A) (body : A → method unit) :
  (∀ x, keeps_self (body x)) → keeps_self (for_each l body).
Proof.
  intros Hb. induction l as [|x l IH]; simpl.
  - apply ks_ret.
  - apply ks_bind; [apply Hb | intros _; apply IH].
Qed.

Lemma ks_if {A} (b : bool) (m1 m2 : method A) :
  keeps_self m1 → keeps_self m2 → keeps_self (if b then m1 else m2).
Proof. by destruct b. Qed.

Ltac ks_step :=
  first [ apply ks_bind; [|intros ?]
        | apply ks_for_each; intros ?
        | apply ks_if
        | apply ks_ret | apply ks_lift | apply ks_get_self
        | apply ks_get_world | apply ks_modify_world
        | apply ks_verbose_print ].

Lemma ks_remove_temp_files : keeps_self remove_temp_files.
Proof. intros st. by rewrite remove_temp_files_unfold. Qed.

Lemma ks_create_gif : keeps_self create_gif.
Proof.
  unfold create_gif.
  repeat first [ apply ks_remove_temp_files | ks_step ].
Qed.

Lemma ks_create_images : keeps_self create_images.
Proof. unfold create_images. repeat ks_step. Qed.

Lemma pipeline_game st :
  game (self (pipeline py_float st).2) = game (self st).
Proof.
  unfold pipeline. rewrite method_bind_unfold.
  pose proof (generate_dataframe_game st) as Hg.
  destruct (generate_dataframe py_float st) as [[[]|e] st1]; simpl in *; [|done].
  rewrite method_bind_unfold.
  pose proof (ks_create_images st1) as Hi.
  destruct (create_images st1) as [[[]|e] st2]; simpl in *; [|congruence].
  rewrite ks_create_gif. congruence.
Qed.

Lemma run_analysis_unfold p v st :
  run_analysis py_float p v st =
  let st1 := if v then {| self := set_verbose true (self st);
                          world := world st |} else st in
  match game (self st1) with
  | Some _ => pipeline py_float st1
  | None =>
      match Game_load (world st1) p with
      | Return g =>
          pipeline py_float
            {| self := set_game_attr g (self st1); world := world st1 |}
      | Raise e => (Raise e, st1)
      end
  end.
Proof.
  unfold run_analysis. fold (pipeline py_float). destruct v; msimpl.
  - destruct (game (self st)); msimpl; [reflexivity|].
    destruct (Game_load (world st) p); by msimpl.
  - destruct (game (self st)); msimpl; [by destruct st|].
    destruct (Game_load (world st) p); msimpl; [reflexivity|by destruct st].
Qed.

(** C9. On an instance whose [game] is set, [run_analysis] ignores its path
    argument: the run is the same for every path, and the instance still
    holds the game it held.  Only when no game is set is the replay at the
    path loaded; it then becomes the game, and a failure to load it ends the
    run with the loader's exception and no game set. *)
Theorem run_analysis_game (st : state) (p : string) (v : bool) :
  match game (self st) with
  | Some g =>
      (∀ p', run_analysis py_float p' v st = run_analysis py_float p v st)
      ∧ game (self (run_analysis py_float p v st).2) = Some g
  | None =>
      match Game_load (world st) p with
      | Return g' => game (self (run_analysis py_float p v st).2) = Some g'
      | Raise e =>
          (run_analysis py_float p v st).1 = Raise e
          ∧ game (self (run_analysis py_float p v st).2) = None
      end
  end.
Proof.
  destruct (game (self st)) as [g|] eqn:Hg.
  - split.
    + intros p'. rewrite !run_analysis_unfold. simpl.
      destruct v; simpl; by rewrite Hg.
    + rewrite run_analysis_unfold. simpl.
      destruct v; simpl; rewrite Hg; by rewrite pipeline_game.
  - rewrite run_analysis_unfold. simpl.
    destruct v; simpl; rewrite Hg;
      destruct (Game_load (world st) p) as [g'|e]; simpl;
      rewrite ?pipeline_game; auto.
Qed.

(** ** The frame extractor *)

Lemma outcome_bind_Return {A B} (m : outcome A) (f : A → outcome B) b :
  m ≫= f = Return b ↔ ∃ a, m = Return a ∧ f a = Return b.
Proof.
  destruct m as [a|e]; simpl; split.
  - intros H. by exists a.
  - by intros (a' & [= ->] & H).
  - done.
  - by intros (a' & [=] & _).
Qed.

Lemma mapM_Return {A B} (f : A → outcome B) (l : list A) (k : list B) :
  mapM f l = Return k ↔ Forall2 (λ x y, f x = Return y) l k.
Proof.
  revert k. induction l as [|x l IH]; intros k; simpl.
  - split.
    + intros [= <-]. constructor.
    + intros H. by inversion H.
  - rewrite outcome_bind_Return. split.
    + intros (y & Hy & H). apply outcome_bind_Return in H as (k' & Hk' & H).
      injection H as <-. constructor; [done|]. by apply IH.
    + intros H. inversion H as [|? y ? k' Hy Hk']; subst.
      exists y. split; [done|]. apply outcome_bind_Return.
      exists k'. split; [by apply IH|done].
Qed.

Lemma mapM_total {A B} (f : A → outcome B) (l : list A) :
  Forall (λ x, ∃ y, f x = Return y) l → ∃ k, mapM f l = Return k.
Proof.
  induction 1 as [|x l [y Hy] _ [k Hk]].
  - by exists [].
  - exists (y :: k). apply mapM_Return. constructor; [done|].
    by apply mapM_Return.
Qed.

Lemma subscript_Return {A} (l : list A) i a :
  subscript l i = Return a ↔ l !! i = Some a.
Proof.
  unfold subscript. destruct (l !! i); split; intros H; by simplify_eq.
Qed.

(** The participant in slot [i] of a frame. *)
Lemma port_Return frame i p :
  port frame i = Return p ↔ ports frame !! i = Some (Some p).
Proof.
  unfold port. rewrite outcome_bind_Return. split.
  - intros ([q|] & Hq & H); [|done]. apply subscript_Return in Hq.
    by simplify_eq.
  - intros H. exists (Some p). by rewrite subscript_Return.
Qed.

Lemma float_of_num_Return x v : float_of_num x = Return v ↔ x = Some v.
Proof. destruct x; simpl; split; intros H; by simplify_eq. Qed.

Lemma read_frame_Return frame a :
  read_frame frame = Return a ↔
  ∃ p1 p2 d1 d2,
    ports frame !! 2 = Some (Some p1) ∧ ports frame !! 3 = Some (Some p2)
    ∧ damage (pre (leader p1)) = Some d1
    ∧ damage (pre (leader p2)) = Some d2
    ∧ a = {| a_p1_xy := position (pre (leader p1));
             a_p2_xy := position (pre (leader p2));
             a_p1_damage := d1;
             a_p2_damage := d2 |}.
Proof.
  unfold read_frame. split.
  - intros H.
    apply outcome_bind_Return in H as (p1 & H1 & H).
    apply outcome_bind_Return in H as (p2 & H2 & H).
    rewrite H1 in H. simpl in H.
    apply outcome_bind_Return in H as (d1 & Hd1%float_of_num_Return & H).
    rewrite H2 in H. simpl in H.
    apply outcome_bind_Return in H as (d2 & Hd2%float_of_num_Return & H).
    injection H as <-.
    apply port_Return in H1, H2. by exists p1, p2, d1, d2.
  - intros (p1 & p2 & d1 & d2 & H1 & H2 & Hd1 & Hd2 & ->).
    apply port_Return in H1, H2. rewrite H1, H2. simpl.
    by rewrite Hd1, Hd2.
Qed.

Lemma float_of_str_Return c x :
  float_of_str py_float c = Return x ↔ py_float c = Some x.
Proof.
  unfold float_of_str. destruct (py_float c); split; intros H; by simplify_eq.
Qed.

Lemma components_Return text x y :
  component py_float 0 (clean text) = Return x
  ∧ component py_float 1 (clean text) = Return y
  ↔ reads_as py_float text x y.
Proof.
  unfold component, reads_as.
  rewrite !outcome_bind_Return. split.
  - intros [(c0 & H0 & Hx) (c1 & H1 & Hy)].
    apply subscript_Return in H0, H1. apply float_of_str_Return in Hx, Hy.
    destruct (split ", " (clean text)) as [|a [|b rest]]; simplify_eq/=.
    by exists c0, c1, rest.
  - intros (c0 & c1 & rest & -> & Hx & Hy).
    split; [exists c0 | exists c1];
      by rewrite subscript_Return, float_of_str_Return.
Qed.

Lemma build_dataframe_Return g d :
  build_dataframe py_float g = Return d ↔
  ∃ rows,
    Forall2 (λ f a, read_frame f = Return a) (frames g) rows
    ∧ Forall2 (λ a x, component py_float 0 (clean (a_p1_xy a)) = Return x)
        rows (P1_x d)
    ∧ Forall2 (λ a y, component py_float 1 (clean (a_p1_xy a)) = Return y)
        rows (P1_y d)
    ∧ Forall2 (λ a x, component py_float 0 (clean (a_p2_xy a)) = Return x)
        rows (P2_x d)
    ∧ Forall2 (λ a y, component py_float 1 (clean (a_p2_xy a)) = Return y)
        rows (P2_y d)
    ∧ index d = seq 0 (length rows)
    ∧ P1 d = clean <$> (a_p1_xy <$> rows)
    ∧ P2 d = clean <$> (a_p2_xy <$> rows)
    ∧ P1_damage d = a_p1_damage <$> rows
    ∧ P2_damage d = a_p2_damage <$> rows.
Proof.
  unfold build_dataframe. rewrite outcome_bind_Return.
  split.
  - intros (rows & Hrows & H).
    apply outcome_bind_Return in H as (xs1 & H1 & H).
    apply outcome_bind_Return in H as (ys1 & H2 & H).
    apply outcome_bind_Return in H as (xs2 & H3 & H).
    apply outcome_bind_Return in H as (ys2 & H4 & H).
    injection H as <-. simpl.
    apply mapM_Return in Hrows, H1, H2, H3, H4.
    rewrite <-!list_fmap_compose in H1, H2, H3, H4.
    apply Forall2_fmap_l in H1, H2, H3, H4.
    by exists rows.
  - intros (rows & Hrows & H1 & H2 & H3 & H4 & Hi & HP1 & HP2 & Hd1 & Hd2).
    exists rows. split; [by apply mapM_Return|].
    assert (∀ i t (col : list float),
      Forall2 (λ a v, component py_float i (clean (t a)) = Return v) rows col →
      mapM (component py_float i) (clean <$> (t <$> rows)) = Return col)
      as Hcol.
    { intros i t col H. apply mapM_Return.
      rewrite <-list_fmap_compose. by apply Forall2_fmap_l. }
    rewrite (Hcol _ _ _ H1). simpl. rewrite (Hcol _ _ _ H2). simpl.
    rewrite (Hcol _ _ _ H3). simpl. rewrite (Hcol _ _ _ H4). simpl.
    destruct d; simplify_eq/=. reflexivity.
Qed.

Lemma build_dataframe_shape g d :
  build_dataframe py_float g = Return d →
  table_shape (length (frames g)) d.
Proof.
  intros H. apply build_dataframe_Return in H
    as (rows & Hrows & H1 & H2 & H3 & H4 & Hi & HP1 & HP2 & Hd1 & Hd2).
  apply Forall2_length in Hrows, H1, H2, H3, H4.
  unfold table_shape.
  rewrite Hi, HP1, HP2, Hd1, Hd2, !length_fmap. repeat split; congruence.
Qed.

Lemma build_dataframe_rows g d i frame :
  build_dataframe py_float g = Return d →
  frames g !! i = Some frame →
  ∃ x1 y1 x2 y2 d1 d2,
    extracts py_float frame x1 y1 x2 y2 d1 d2 ∧ row_is d i x1 y1 x2 y2 d1 d2.
Proof.
  intros H Hi. apply build_dataframe_Return in H
    as (rows & Hrows & H1 & H2 & H3 & H4 & _ & _ & _ & Hd1 & Hd2).
  destruct (Forall2_lookup_l _ _ _ _ _ Hrows Hi) as (a & Ha & Hread).
  destruct (Forall2_lookup_l _ _ _ _ _ H1 Ha) as (x1 & Hx1 & Hc1).
  destruct (Forall2_lookup_l _ _ _ _ _ H2 Ha) as (y1 & Hy1 & Hc2).
  destruct (Forall2_lookup_l _ _ _ _ _ H3 Ha) as (x2 & Hx2 & Hc3).
  destruct (Forall2_lookup_l _ _ _ _ _ H4 Ha) as (y2 & Hy2 & Hc4).
  apply read_frame_Return in Hread
    as (p1 & p2 & d1 & d2 & Hp1 & Hp2 & Hdmg1 & Hdmg2 & ->).
  simpl in *.
  exists x1, y1, x2, y2, d1, d2.
  split.
  - exists p1, p2. repeat split; try done; by apply components_Return.
  - unfold row_is. rewrite Hd1, Hd2, !list_lookup_fmap, Ha. simpl.
    by repeat split.
Qed.

Lemma build_dataframe_total g :
  Forall (frame_ok py_float) (frames g) →
  ∃ d, build_dataframe py_float g = Return d.
Proof.
  intros Hok.
  assert (∃ rows,
    Forall2 (λ f a, read_frame f = Return a) (frames g) rows
    ∧ Forall (λ a, (∃ x y, reads_as py_float (a_p1_xy a) x y)
                 ∧ (∃ x y, reads_as py_float (a_p2_xy a) x y)) rows)
    as (rows & Hrows & Hreads).
  { induction Hok as [|frame l Hf _ (rows & Hrows & Hreads)].
    - exists []. by split; constructor.
    - destruct Hf as (x1 & y1 & x2 & y2 & d1 & d2 & p1 & p2
                      & Hp1 & Hp2 & Hr1 & Hr2 & Hdmg1 & Hdmg2).
      eexists (_ :: rows). split.
      + constructor; [|done]. apply read_frame_Return.
        by exists p1, p2, d1, d2.
      + constructor; [|done]. simpl. split; eauto. }
  assert (∀ i t,
    Forall (λ a, ∃ v, component py_float i (clean (t a)) = Return v) rows →
    ∃ col, Forall2 (λ a v, component py_float i (clean (t a)) = Return v)
             rows col) as Hcol.
  { clear. intros i t H. induction H as [|a l [v Hv] _ [col Hc]].
    - by exists [].
    - exists (v :: col). by constructor. }
  destruct (Hcol 0 a_p1_xy) as [xs1 H1].
  { eapply Forall_impl; [exact Hreads|]. intros a [(x & y & H) _].
    apply components_Return in H as [H _]. eauto. }
  destruct (Hcol 1 a_p1_xy) as [ys1 H2].
  { eapply Forall_impl; [exact Hreads|]. intros a [(x & y & H) _].
    apply components_Return in H as [_ H]. eauto. }
  destruct (Hcol 0 a_p2_xy) as [xs2 H3].
  { eapply Forall_impl; [exact Hreads|]. intros a [_ (x & y & H)].
    apply components_Return in H as [H _]. eauto. }
  destruct (Hcol 1 a_p2_xy) as [ys2 H4].
  { eapply Forall_impl; [exact Hreads|]. intros a [_ (x & y & H)].
    apply components_Return in H as [_ H]. eauto. }
  eexists {| index := _ |}. apply build_dataframe_Return.
  exists rows. simpl. by repeat split.
Qed.

(** C5. A replay of [N] frames that all have both participant slots and
    readable positions gives a table of exactly [N] rows, indexed [0..N-1]
    in frame order: [generate_dataframe] returns, stores the table, and
    row [i] holds the positions and damages of frame [i]. *)
Theorem frames_become_rows (st : state) (g : Game) :
  game (self st) = Some g →
  Forall (frame_ok py_float) (frames g) →
  ∃ d,
    (generate_dataframe py_float st).1 = Return ()
    ∧ df (self (generate_dataframe py_float st).2) = Some d
    ∧ index d = seq 0 (length (frames g))
    ∧ table_shape (length (frames g)) d
    ∧ ∀ i frame, frames g !! i = Some frame →
        ∃ x1 y1 x2 y2 d1 d2,
          extracts py_float frame x1 y1 x2 y2 d1 d2
          ∧ row_is d i x1 y1 x2 y2 d1 d2.
Proof.
  intros Hg Hok. destruct (build_dataframe_total g Hok) as [d Hd].
  exists d. rewrite generate_dataframe_unfold, Hg, Hd. simpl.
  pose proof (build_dataframe_shape g d Hd) as Hshape.
  repeat split; try done; try apply Hshape.
  intros i frame Hi. by apply (build_dataframe_rows g).
Qed.

(** C4, as the code has it.  [generate_dataframe] returns exactly when
    every frame has both participant slots and each position text, with all
    its brackets removed, splits at [", "] into at least two components of
    which the first two convert to floats; those two floats are the row's
    coordinates and further components are ignored.  When it raises, the
    instance keeps the table it had: no partial table is stored. *)
Theorem extraction_reads_two_components (st : state) (g : Game) :
  game (self st) = Some g →
  ((generate_dataframe py_float st).1 = Return ()
   ↔ Forall (frame_ok py_float) (frames g))
  ∧ (∀ d, df (self (generate_dataframe py_float st).2) = Some d →
      (generate_dataframe py_float st).1 = Return () →
      ∀ i frame, frames g !! i = Some frame →
        ∃ x1 y1 x2 y2 d1 d2,
          extracts py_float frame x1 y1 x2 y2 d1 d2
          ∧ row_is d i x1 y1 x2 y2 d1 d2)
  ∧ (raises (generate_dataframe py_float st).1 →
      df (self (generate_dataframe py_float st).2) = df (self st)).
Proof.
  intros Hg. rewrite generate_dataframe_unfold, Hg. simpl.
  destruct (build_dataframe py_float g) as [d|e] eqn:Hd; simpl.
  - repeat split; try done.
    + intros _. apply Forall_lookup. intros i frame Hi.
      destruct (build_dataframe_rows g d i frame Hd Hi)
        as (x1 & y1 & x2 & y2 & d1 & d2 & H & _).
      by exists x1, y1, x2, y2, d1, d2.
    + intros d' [= <-] _ i frame Hi. by apply (build_dataframe_rows g).
  - repeat split; try done.
    intros Hok. destruct (build_dataframe_total g Hok) as [d Hd'].
    congruence.
Qed.

(** ** The frame renderer *)

Lemma for_each_app {A} (l1 l2 : list A) (body : A → method unit) st :
  for_each (l1 ++ l2) body st =
  match for_each l1 body st with
  | (Return _, st') => for_each l2 body st'
  | (Raise e, st') => (Raise e, st')
  end.
Proof.
  revert st. induction l1 as [|x l1 IH]; intros st; simpl; [done|].
  rewrite !method_bind_unfold.
  destruct (body x st) as [[[]|e] st1]; [apply IH|done].
Qed.

Lemma create_images_unfold st d :
  df (self st) = Some d →
  create_images st =
  match for_each (index d) (render_row d)
          (verbose_print (Line ("Creating plots..." +:+ nl)) st).2 with
  | (Return _, st') => verbose_print (Line ("Plotting complete..." +:+ nl)) st'
  | (Raise e, st') => (Raise e, st')
  end.
Proof.
  intros Hd. unfold create_images. fold (render_row d).
  rewrite method_bind_unfold, verbose_print_unfold.
  rewrite method_bind_unfold. unfold get_self at 1. simpl.
  rewrite method_bind_unfold. unfold lift at 1. simpl. rewrite Hd. simpl.
  by rewrite method_bind_unfold.
Qed.

Lemma render_total N d fs row :
  table_shape N d → row < N → ∃ c, render fs d row = Return c.
Proof.
  intros (_ & _ & _ & H1 & H2 & H3 & H4 & H5 & H6) Hrow.
  unfold render, iloc, subscript.
  destruct (lookup_lt_is_Some_2 (P1_damage d) row) as [d1 ->]; [lia|].
  destruct (lookup_lt_is_Some_2 (P2_damage d) row) as [d2 ->]; [lia|].
  destruct (lookup_lt_is_Some_2 (P1_x d) row) as [x1 ->]; [lia|].
  destruct (lookup_lt_is_Some_2 (P1_y d) row) as [y1 ->]; [lia|].
  destruct (lookup_lt_is_Some_2 (P2_x d) row) as [x2 ->]; [lia|].
  destruct (lookup_lt_is_Some_2 (P2_y d) row) as [y2 ->]; [lia|].
  simpl. eauto.
Qed.

Lemma odd_half n : Nat.odd n = true → (S n + 1) / 2 = (n + 1) / 2.
Proof.
  intros [m ->]%Nat.odd_spec.
  replace (S (2 * m + 1) + 1) with (1 + (m + 1) * 2) by lia.
  replace (2 * m + 1 + 1) with (0 + (m + 1) * 2) by lia.
  by rewrite !Nat.div_add.
Qed.

Lemma even_half n :
  Nat.odd n = false → (S n + 1) / 2 = S ((n + 1) / 2) ∧ (n + 1) / 2 = n / 2.
Proof.
  intros H. assert (Nat.even n = true) as [m ->]%Nat.even_spec.
  { by rewrite <-Nat.negb_odd, H. }
  replace (S (2 * m) + 1) with (0 + (m + 1) * 2) by lia.
  replace (2 * m + 1) with (1 + m * 2) by lia.
  replace (2 * m) with (0 + m * 2) by lia.
  rewrite !Nat.div_add by done. simpl. lia.
Qed.

Lemma render_loop N d st n :
  table_shape N d → n ≤ N →
  ∃ w',
    for_each (seq 0 n) (render_row d) st
    = (Return (), {| self := self st; world := w' |})
    ∧ rendered (temp_images_dir (self st)) (figure_size (self st)) d n
        (world st) w'.
Proof.
  intros Hshape. induction n as [|n IH]; intros Hn.
  - exists (world st). split; [by destruct st|].
    repeat split; try done; try (simpl; lia).
  - destruct IH as (w1 & Hrun & Hc & Ho & Hnew & Hold); [lia|].
    rewrite seq_S, for_each_app, Hrun. simpl.
    rewrite method_bind_unfold. unfold render_row at 1.
    destruct (Nat.odd n) eqn:Hodd.
    + exists w1. split; [done|]. repeat split; try done.
      * by rewrite odd_half.
      * intros row Hrow Heven. apply Hnew; [|done].
        assert (row ≠ n); [|lia]. intros ->.
        by rewrite <-Nat.negb_odd, Hodd in Heven.
      * intros p Hp. apply Hold. intros row Hrow. apply Hp. lia.
    + destruct (even_half n Hodd) as [Hs Hh].
      destruct (render_total N d (figure_size (self st)) n Hshape)
        as [c Hrender]; [lia|].
      rewrite !method_bind_unfold. unfold get_self at 1, lift at 1. simpl.
      rewrite Hrender. simpl.
      eexists. split; [reflexivity|].
      repeat split; unfold write_file; cbn [clock files stdout world self].
      * rewrite Hc, Hs. lia.
      * done.
      * intros row Hrow Heven. destruct (decide (row = n)) as [->|Hne].
        -- exists c. split; [done|].
           rewrite lookup_insert_eq, Hc, Hh. done.
        -- destruct (Hnew row) as (c' & Hc' & Hl); [lia|done|].
           exists c'. split; [done|].
           rewrite lookup_insert_ne; [done|].
           intros Heq. by apply image_path_inj in Heq.
      * intros p Hp. rewrite lookup_insert_ne.
        -- apply Hold. intros row Hrow. apply Hp. lia.
        -- intros Heq. apply (Hp n); [lia| |done].
           by rewrite <-Nat.negb_odd, Hodd.
Qed.

Lemma elem_of_even_rows N row :
  row ∈ even_rows N ↔ row < N ∧ Nat.even row = true.
Proof.
  unfold even_rows. rewrite list_elem_of_filter, elem_of_seq.
  split; [intros [? [_ ?]]|intros [? ?]]; split; try done; lia.
Qed.

Lemma length_even_rows N : length (even_rows N) = (N + 1) / 2.
Proof.
  unfold even_rows. induction N as [|N IH]; [done|].
  rewrite seq_S, filter_app, length_app, IH, Nat.add_0_l.
  destruct (Nat.odd N) eqn:Hodd.
  - rewrite odd_half by done. rewrite filter_cons_False, filter_nil.
    + simpl. lia.
    + by rewrite <-Nat.negb_odd, Hodd.
  - destruct (even_half N Hodd) as [-> _].
    rewrite filter_cons_True, filter_nil.
    + simpl. lia.
    + by rewrite <-Nat.negb_odd, Hodd.
Qed.


Lemma elem_of_written_paths dir N p :
  p ∈ written_paths dir N ↔
  ∃ row, row < N ∧ Nat.even row = true ∧ p = image_path dir row.
Proof.
  unfold written_paths. rewrite elem_of_list_to_set, list_elem_of_fmap.
  split.
  - intros (row & -> & [Hrow Heven]%elem_of_even_rows). by exists row.
  - intros (row & Hrow & Heven & ->). exists row.
    split; [done|]. by apply elem_of_even_rows.
Qed.

Lemma create_images_rendered st d N :
  df (self st) = Some d → table_shape N d →
  (create_images st).1 = Return ()
  ∧ self (create_images st).2 = self st
  ∧ clock (world (create_images st).2) = clock (world st) + (N + 1) / 2
  ∧ (∀ row, row < N → Nat.even row = true →
      ∃ c, render (figure_size (self st)) d row = Return c
           ∧ files (world (create_images st).2)
               !! image_path (temp_images_dir (self st)) row
             = Some {| mtime := clock (world st) + row / 2; data := Png c |})
  ∧ (∀ p, (∀ row, row < N → Nat.even row = true →
             p ≠ image_path (temp_images_dir (self st)) row) →
      files (world (create_images st).2) !! p = files (world st) !! p).
Proof.
  intros Hd Hshape. rewrite (create_images_unfold st d Hd).
  destruct Hshape as [Hindex Hcols]. rewrite Hindex.
  destruct (render_loop N d
    (verbose_print (Line ("Creating plots..." +:+ nl)) st).2 N)
    as (w' & -> & Hc & Ho & Hnew & Hold); [done|lia|].
  rewrite !verbose_print_unfold in *.
  cbn [self world fst snd] in *.
  destruct (verbose (self st)); cbn [files clock stdout print_line] in *;
    repeat split; done.
Qed.


Lemma unwritten_path dir N p :
  p ∉ written_paths dir N →
  ∀ row, row < N → Nat.even row = true → p ≠ image_path dir row.
Proof.
  intros Hp row Hrow Heven ->. apply Hp, elem_of_written_paths. eauto.
Qed.




(** ** The animation assembler *)

Lemma files_say s text w : files (say s text w) = files w.
Proof. unfold say. by destruct (verbose s). Qed.

Lemma clock_say s text w : clock (say s text w) = clock w.
Proof. unfold say. by destruct (verbose s). Qed.

Lemma glob_say dir suffix s text w :
  glob dir suffix (say s text w) = glob dir suffix w.
Proof. unfold say. by destruct (verbose s). Qed.

Lemma is_dir_say s text w : is_dir (say s text w) = is_dir w.
Proof. unfold say. by destruct (verbose s). Qed.

Lemma image_open_say s text w : image_open (say s text w) = image_open w.
Proof. unfold say. by destruct (verbose s). Qed.

Lemma sorted_by_mtime_say s text w :
  sorted_by_mtime (say s text w) = sorted_by_mtime w.
Proof. unfold say. by destruct (verbose s). Qed.

Lemma getmtime_say s text w : getmtime (say s text w) = getmtime w.
Proof. unfold say. by destruct (verbose s). Qed.

Lemma verbose_print_say text st :
  verbose_print (Line (text +:+ nl)) st
  = (Return (), {| self := self st; world := say (self st) text (world st) |}).
Proof. apply verbose_print_unfold. Qed.

Lemma create_gif_unfold st :
  create_gif st =
  let s := self st in
  let w0 := say s "Creating GIF..." (world st) in
  match mapM (image_open w0)
          (sorted_by_mtime w0 (glob (temp_images_dir s) ".png" w0)) with
  | Raise e => (Raise e, {| self := s; world := w0 |})
  | Return frames =>
      let w1 := say s "Saving to GIF...please wait " w0 in
      match subscript frames 0 with
      | Raise e => (Raise e, {| self := s; world := w1 |})
      | Return first =>
          let w2 :=
            write_file (gif_path s) (gif_of 30 0 first (drop 1 frames)) w1 in
          let w3 := say s "Closing frames..." w2 in
          let r := remove_each (glob "Temp_images" "" w3) w3 in
          match r.1 with
          | Raise e => (Raise e, {| self := s; world := r.2 |})
          | Return _ =>
              (Return (),
               {| self := s; world := say s "Process complete!" r.2 |})
          end
      end
  end.
Proof.
  unfold create_gif.
  rewrite method_bind_unfold, verbose_print_say.
  rewrite method_bind_unfold. unfold get_self at 1.
  rewrite method_bind_unfold. unfold get_world at 1.
  rewrite method_bind_unfold. unfold lift at 1. cbn [self world].
  destruct (mapM _ _) as [frames|e]; [|done].
  rewrite method_bind_unfold, verbose_print_say.
  rewrite method_bind_unfold. unfold lift at 1. cbn [self world].
  destruct (subscript frames 0) as [first|e]; [|done].
  rewrite method_bind_unfold. unfold modify_world at 1.
  rewrite method_bind_unfold, verbose_print_say.
  rewrite method_bind_unfold, remove_temp_files_unfold. cbv zeta.
  cbn [self world].
  destruct (remove_each _ _).1; [|done].
  by rewrite verbose_print_say.
Qed.

(** *** The loop of the cleanup *)

Lemma clock_remove_each l w : clock (remove_each l w).2 = clock w.
Proof.
  revert w. induction l as [|p l IH]; intros w; simpl; [done|].
  destruct (is_dir w p); [done|]. destruct (files w !! p); [|done].
  by rewrite IH.
Qed.

Lemma stdout_remove_each l w : stdout (remove_each l w).2 = stdout w.
Proof.
  revert w. induction l as [|p l IH]; intros w; simpl; [done|].
  destruct (is_dir w p); [done|]. destruct (files w !! p); [|done].
  by rewrite IH.
Qed.

(** The loop touches no path outside its list. *)
Lemma remove_each_other l w q :
  q ∉ l → files (remove_each l w).2 !! q = files w !! q.
Proof.
  revert w. induction l as [|p l IH]; intros w Hq; simpl; [done|].
  apply not_elem_of_cons in Hq as [Hne Hq].
  destruct (is_dir w p); [done|]. destruct (files w !! p); [|done].
  rewrite IH by done. cbn [delete_file files]. by apply lookup_delete_ne.
Qed.

(** The loop creates nothing. *)
Lemma remove_each_sub l w q f :
  files (remove_each l w).2 !! q = Some f → files w !! q = Some f.
Proof.
  revert w. induction l as [|p l IH]; intros w; simpl; [done|].
  destruct (is_dir w p); [done|]. destruct (files w !! p); [|done].
  intros Hq%IH. cbn [delete_file files] in Hq.
  by apply lookup_delete_Some in Hq as [_ ?].
Qed.

Lemma is_dir_delete_file w p q :
  p ≠ q → below p q = false →
  is_dir (delete_file q w) p = is_dir w p.
Proof.
  intros Hne Hb. apply Bool.eq_iff_eq_true. rewrite !is_dir_true.
  cbn [delete_file files]. split.
  - intros [(f & Hf & Hd)|(path & [g Hg] & Hp)].
    + left. exists f. by rewrite lookup_delete_ne in Hf.
    + right. exists path. split; [|done].
      apply lookup_delete_Some in Hg as [_ Hg]. by eexists.
  - intros [(f & Hf & Hd)|(path & [g Hg] & Hp)].
    + left. exists f. by rewrite lookup_delete_ne.
    + right. exists path. split; [|done]. exists g.
      apply lookup_delete_Some. split; [|done]. intros ->. congruence.
Qed.

(** On the entries of one directory the loop stops at the first directory
    with [IsADirectoryError], and otherwise removes every entry. *)
Lemma remove_each_spec l w :
  NoDup l →
  (∀ p q, p ∈ l → q ∈ l → below p q = false) →
  (∀ p, p ∈ l → is_dir w p = true ∨ is_Some (files w !! p)) →
  (remove_each l w).1
  = (if existsb (is_dir w) l then Raise IsADirectoryError else Return ())
  ∧ (existsb (is_dir w) l = false →
     ∀ q, q ∈ l → files (remove_each l w).2 !! q = None).
Proof.
  revert w. induction l as [|p l IH]; intros w Hnd Hapart Hex.
  - split; [done|]. intros _ q Hq. by apply not_elem_of_nil in Hq.
  - apply NoDup_cons in Hnd as [Hp Hnd]. cbn [remove_each existsb].
    destruct (is_dir w p) eqn:Hdir; [done|]. cbn [orb].
    destruct (Hex p) as [Hd|[f Hf]]; [by left|congruence|]. rewrite Hf.
    assert (∀ q, q ∈ l → is_dir (delete_file p w) q = is_dir w q) as Hsame.
    { intros q Hq. apply is_dir_delete_file.
      - intros ->. done.
      - apply Hapart; [by right|by left]. }
    assert (existsb (is_dir (delete_file p w)) l = existsb (is_dir w) l)
      as Hexb.
    { clear -Hsame. induction l as [|q l IH]; [done|]. simpl.
      rewrite Hsame by by left. rewrite IH; [done|].
      intros r Hr. apply Hsame. by right. }
    destruct (IH (delete_file p w)) as [Hout Hnone]; [done| | |].
    { intros q r Hq Hr. apply Hapart; by right. }
    { intros q Hq. rewrite Hsame by done. cbn [delete_file files].
      rewrite lookup_delete_ne by (intros ->; done). apply Hex. by right. }
    rewrite Hexb in Hout, Hnone. split; [done|].
    intros Hno q [->|Hq]%elem_of_cons.
    + rewrite remove_each_other by done. cbn [delete_file files].
      apply lookup_delete_eq.
    + by apply Hnone.
Qed.

(** *** Worlds that agree inside a directory *)

Lemma entry_in_below dir path name :
  entry_in dir path = Some name → below dir path = true.
Proof. unfold entry_in, below. by destruct (strip_prefix _ _). Qed.

Lemma below_trans a b c :
  below a b = true → below b c = true → below a c = true.
Proof.
  rewrite !below_spec. intros [r ->] [r' ->].
  exists (r +:+ "/" +:+ r'). by rewrite !string_app_assoc.
Qed.

Lemma glob_below dir suffix w p : p ∈ glob dir suffix w → below dir p = true.
Proof.
  intros (name & _ & -> & _)%elem_of_glob. apply below_spec. by exists name.
Qed.

Lemma glob_agree dir suffix w w' :
  (∀ p, below dir p = true → files w' !! p = files w !! p) →
  ∀ p, p ∈ glob dir suffix w' ↔ p ∈ glob dir suffix w.
Proof.
  intros Hag p. rewrite !elem_of_glob.
  split; intros (name & path & -> & Hv & Hpath & He); exists name, path;
    (split; [done|]; split; [done|]; split; [|done]).
  - rewrite <-Hag; [done|]. by apply (entry_in_below _ _ name).
  - rewrite Hag; [done|]. by apply (entry_in_below _ _ name).
Qed.

Lemma is_dir_agree dir w w' p :
  (∀ q, below dir q = true → files w' !! q = files w !! q) →
  below dir p = true → is_dir w' p = is_dir w p.
Proof.
  intros Hag Hp. apply Bool.eq_iff_eq_true. rewrite !is_dir_true.
  split; (intros [(f & Hf & Hd)|(path & Hpath & Hb)];
          [left; exists f|right; exists path]).
  - by rewrite <-Hag.
  - split; [|done]. rewrite <-Hag; [done|]. by apply (below_trans _ p).
  - by rewrite Hag.
  - split; [|done]. rewrite Hag; [done|]. by apply (below_trans _ p).
Qed.

Lemma existsb_agree {A} (f g : A → bool) (l l' : list A) :
  (∀ x, x ∈ l ↔ x ∈ l') → (∀ x, x ∈ l → f x = g x) →
  existsb f l = existsb g l'.
Proof.
  intros Hl Hf. apply Bool.eq_iff_eq_true. rewrite !existsb_exists.
  setoid_rewrite <-list_elem_of_In. split.
  - intros (x & Hx & Hfx). exists x. split; [by apply Hl|].
    by rewrite <-Hf.
  - intros (x & Hx & Hgx). apply Hl in Hx. exists x. split; [done|].
    by rewrite Hf.
Qed.

Lemma cleanup_blocked_agree w w' :
  (∀ p, below "Temp_images" p = true → files w' !! p = files w !! p) →
  cleanup_blocked w' = cleanup_blocked w.
Proof.
  intros Hag. unfold cleanup_blocked. apply existsb_agree.
  - by apply glob_agree.
  - intros p Hp. apply (is_dir_agree "Temp_images"); [done|].
    by apply glob_below in Hp.
Qed.

(** The cleanup, whatever directory the instance is configured with: it
    ends with [IsADirectoryError] when some visible entry of [Temp_images]
    is a directory and returns otherwise; it touches nothing but visible
    entries of [Temp_images]; and when it returns none of them is left. *)
Lemma remove_temp_files_spec st :
  (remove_temp_files st).1
  = (if cleanup_blocked (world st) then Raise IsADirectoryError
     else Return ())
  ∧ self (remove_temp_files st).2 = self st
  ∧ clock (world (remove_temp_files st).2) = clock (world st)
  ∧ (∀ p, p ∉ glob "Temp_images" "" (world st) →
       files (world (remove_temp_files st).2) !! p = files (world st) !! p)
  ∧ (cleanup_blocked (world st) = false →
     ∀ p, p ∈ glob "Temp_images" "" (world st) →
       files (world (remove_temp_files st).2) !! p = None).
Proof.
  rewrite remove_temp_files_unfold. cbn [fst snd self world].
  destruct (remove_each_spec (glob "Temp_images" "" (world st)) (world st))
    as [Hout Hnone].
  - apply NoDup_glob.
  - intros p q. apply glob_entries_apart.
  - intros p. apply glob_entry.
  - split; [done|]. split; [done|]. split; [apply clock_remove_each|].
    split; [|done]. intros p Hp. by apply remove_each_other.
Qed.

(** The output path is not in [Temp_images]. *)
Lemma gif_path_outside s : below "Temp_images" (gif_path s) = false.
Proof. reflexivity. Qed.

Global Instance mtime_le_trans w : Transitive (mtime_le w).
Proof. unfold mtime_le. intros p q r. lia. Qed.

Global Instance mtime_le_total w : Total (mtime_le w).
Proof. unfold mtime_le. intros p q. lia. Qed.

Lemma image_open_still w p c : still_at w p c → image_open w p = Return [c].
Proof.
  intros (Hdir & f & Hf & Hc). unfold image_open. by rewrite Hdir, Hf, Hc.
Qed.


Lemma open_given_stills w (order : list string) (charts : list chart) :
  Forall2 (still_at w) order charts →
  mapM (image_open w) order = Return ((λ c, [c]) <$> charts).
Proof.
  intros H. apply mapM_Return. apply Forall2_fmap_r.
  eapply Forall2_impl; [exact H|]. intros p c Hc.
  by apply image_open_still.
Qed.

Lemma concat_singletons {A} (l : list A) : concat ((λ c, [c]) <$> l) = l.
Proof.
  induction l as [|x l IH]; [done|].
  rewrite fmap_cons. cbn [concat app]. by rewrite IH.
Qed.


(** *** The frames of the animation *)

(** The encoder keeps a subsequence of the pictures that starts with the
    first one, and all of them when none repeats the one before it. *)
Lemma merge_frames_spec c (l : list chart) :
  merge_frames c l `sublist_of` (c :: l)
  ∧ head (merge_frames c l) = Some c
  ∧ length (merge_frames c l) ≤ S (length l).
Proof.
  revert c. induction l as [|c' l IH]; intros c; cbn [merge_frames].
  - split; [done|]. split; [done|]. simpl. lia.
  - cbn [length]. destruct (same_picture c c').
    + destruct (IH c) as (Hsub & Hhd & Hlen).
      split; [|split; [done|lia]].
      etrans; [exact Hsub|]. by apply sublist_skip, sublist_cons.
    + destruct (IH c') as (Hsub & Hhd & Hlen). cbn [length head].
      split; [by apply sublist_skip|]. split; [done|]. lia.
Qed.

Lemma merge_frames_no_repeat c (l : list chart) :
  no_repeat (c :: l) = true → merge_frames c l = c :: l.
Proof.
  revert c. induction l as [|c' l IH]; intros c; [done|].
  cbn [no_repeat merge_frames]. intros [Hc Hl]%andb_true_iff.
  apply negb_true_iff in Hc. rewrite Hc. f_equal. by apply IH.
Qed.

Lemma gif_frames_spec (l : list chart) :
  gif_frames l `sublist_of` l
  ∧ head (gif_frames l) = head l
  ∧ length (gif_frames l) ≤ length l
  ∧ (no_repeat l = true → gif_frames l = l).
Proof.
  destruct l as [|c l]; cbn [gif_frames].
  - split; [done|]. split; [done|]. split; [simpl; lia|done].
  - destruct (merge_frames_spec c l) as (Hsub & Hhd & Hlen).
    cbn [length head].
    split; [done|]. split; [done|]. split; [lia|].
    apply merge_frames_no_repeat.
Qed.

(** *** What [create_gif] leaves *)

(** The world [create_gif] leaves once every [*.png] entry has been opened:
    the animation is written, then the cleanup runs. *)
Lemma create_gif_written st (first : image) (rest : list image) :
  mapM (image_open (world st))
    (sorted_by_mtime (world st)
       (glob (temp_images_dir (self st)) ".png" (world st)))
  = Return (first :: rest) →
  (create_gif st).1
  = (if cleanup_blocked (world st) then Raise IsADirectoryError
     else Return ())
  ∧ self (create_gif st).2 = self st
  ∧ clock (world (create_gif st).2) = S (clock (world st))
  ∧ files (world (create_gif st).2) !! gif_path (self st)
    = Some {| mtime := clock (world st); data := gif_of 30 0 first rest |}
  ∧ (∀ p, p ≠ gif_path (self st) →
       p ∉ glob "Temp_images" "" (world st) →
       files (world (create_gif st).2) !! p = files (world st) !! p)
  ∧ (∀ p f, p ≠ gif_path (self st) →
       files (world (create_gif st).2) !! p = Some f →
       files (world st) !! p = Some f)
  ∧ (cleanup_blocked (world st) = false →
     ∀ p, p ∈ glob "Temp_images" "" (world st) →
       files (world (create_gif st).2) !! p = None).
Proof.
  intros Hopen.
  rewrite create_gif_unfold. cbv zeta.
  rewrite glob_say, sorted_by_mtime_say, image_open_say, Hopen.
  unfold subscript. cbn [lookup list_lookup drop]. rewrite drop_0.
  set (content := gif_of 30 0 first rest).
  set (w3 := say (self st) "Closing frames..."
               (write_file (gif_path (self st)) content
                  (say (self st) "Saving to GIF...please wait "
                     (say (self st) "Creating GIF..." (world st))))).
  assert (∀ p, p ≠ gif_path (self st) →
    files w3 !! p = files (world st) !! p) as Hfiles.
  { intros p Hp. unfold w3. rewrite files_say. cbn [write_file files].
    rewrite lookup_insert_ne by done. by rewrite !files_say. }
  assert (files w3 !! gif_path (self st)
          = Some {| mtime := clock (world st); data := content |}) as Hgif.
  { unfold w3. rewrite files_say. cbn [write_file files].
    by rewrite lookup_insert_eq, !clock_say. }
  assert (clock w3 = S (clock (world st))) as Hclock.
  { unfold w3. rewrite clock_say. cbn [write_file clock].
    by rewrite !clock_say. }
  assert (∀ p, below "Temp_images" p = true →
    files w3 !! p = files (world st) !! p) as Hag.
  { intros p Hp. apply Hfiles. intros ->.
    by rewrite gif_path_outside in Hp. }
  pose proof (glob_agree "Temp_images" "" _ _ Hag) as Hglob.
  pose proof (cleanup_blocked_agree _ _ Hag) as Hblocked.
  assert (gif_path (self st) ∉ glob "Temp_images" "" w3) as Hout.
  { intros Hin%glob_below. by rewrite gif_path_outside in Hin. }
  pose proof (remove_temp_files_spec {| self := self st; world := w3 |})
    as (Hret & _ & Hclock' & Hother & Hgone).
  rewrite remove_temp_files_unfold in Hret, Hclock', Hother, Hgone.
  cbn [fst snd self world] in Hret, Hclock', Hother, Hgone.
  rewrite Hblocked in Hret, Hgone.
  set (r := remove_each (glob "Temp_images" "" w3) w3) in *.
  assert (∀ o : outcome unit,
    files (world
      (match o with
       | Raise e => (Raise e, {| self := self st; world := r.2 |})
       | Return _ =>
           (Return (),
            {| self := self st;
               world := say (self st) "Process complete!" r.2 |})
       end).2) = files r.2
    ∧ clock (world
      (match o with
       | Raise e => (Raise e, {| self := self st; world := r.2 |})
       | Return _ =>
           (Return (),
            {| self := self st;
               world := say (self st) "Process complete!" r.2 |})
       end).2) = clock r.2
    ∧ self
      (match o with
       | Raise e => (Raise e, {| self := self st; world := r.2 |})
       | Return _ =>
           (Return (),
            {| self := self st;
               world := say (self st) "Process complete!" r.2 |})
       end).2 = self st) as Hfinal.
  { intros [[]|e]; cbn [snd world self]; by rewrite ?files_say, ?clock_say. }
  destruct (Hfinal r.1) as (Hf & Hc & Hs). rewrite Hf, Hc, Hs.
  split.
  { rewrite Hret. by destruct (cleanup_blocked (world st)). }
  split; [done|]. split; [congruence|]. split; [|split; [|split]].
  - by rewrite Hother, Hgif.
  - intros p Hp Hnin. rewrite Hother; [by apply Hfiles|].
    by rewrite Hglob.
  - intros p f Hp Hpf%remove_each_sub. by rewrite <-Hfiles.
  - intros Hno p Hp. apply Hgone; [done|]. by rewrite Hglob.
Qed.

(** The same when every [*.png] entry is a still picture. *)
Lemma create_gif_of_stills st (order : list string) (charts : list chart) :
  sorted_by_mtime (world st)
    (glob (temp_images_dir (self st)) ".png" (world st)) = order →
  Forall2 (still_at (world st)) order charts →
  charts ≠ [] →
  (create_gif st).1
  = (if cleanup_blocked (world st) then Raise IsADirectoryError
     else Return ())
  ∧ self (create_gif st).2 = self st
  ∧ clock (world (create_gif st).2) = S (clock (world st))
  ∧ files (world (create_gif st).2) !! gif_path (self st)
    = Some {| mtime := clock (world st);
              data := Gif (gif_frames charts) 30 0 |}
  ∧ (∀ p, p ≠ gif_path (self st) →
       p ∉ glob "Temp_images" "" (world st) →
       files (world (create_gif st).2) !! p = files (world st) !! p)
  ∧ (∀ p f, p ≠ gif_path (self st) →
       files (world (create_gif st).2) !! p = Some f →
       files (world st) !! p = Some f)
  ∧ (cleanup_blocked (world st) = false →
     ∀ p, p ∈ glob "Temp_images" "" (world st) →
       files (world (create_gif st).2) !! p = None).
Proof.
  intros Horder Hstills Hne.
  destruct charts as [|c charts]; [done|].
  pose proof (create_gif_written st [c] ((λ c, [c]) <$> charts)) as H.
  unfold gif_of in H. cbn [concat app] in H.
  rewrite concat_singletons in H. apply H.
  rewrite Horder, (open_given_stills _ _ _ Hstills). by rewrite fmap_cons.
Qed.



(** * Further properties of the methods *)

(** ** Console output *)

Lemma q_ret {A} (a : A) : quiet (mret a).
Proof. by intros st H. Qed.

Lemma q_bind {A B} (m : method A) (f : A → method B) :
  quiet m → (∀ a, quiet (f a)) → quiet (m ≫= f).
Proof.
  intros Hm Hf st H. rewrite method_bind_unfold.
  destruct (Hm st H) as [Hv Ho].
  destruct (m st) as [[a|e] st']; simpl in *; [|done].
  destruct (Hf a st' Hv) as [Hv' Ho']. split; [done|congruence].
Qed.

Lemma q_self_bind {B} (f : SlippiScatter → method B) :
  (∀ s, verbose s = false → quiet (f s)) → quiet (get_self ≫= f).
Proof.
  intros Hf st H. rewrite method_bind_unfold. unfold get_self at 1.
  by apply Hf.
Qed.

Lemma q_lift {A} (o : outcome A) : quiet (lift o).
Proof. by intros st H. Qed.

Lemma q_get_world : quiet get_world.
Proof. by intros st H. Qed.

Lemma q_modify_world f :
  (∀ w, stdout (f w) = stdout w) → quiet (modify_world f).
Proof. intros Hf st H. simpl. by rewrite Hf. Qed.

Lemma q_modify_self f :
  (∀ s, verbose (f s) = verbose s) → quiet (modify_self f).
Proof. intros Hf st H. simpl. by rewrite Hf. Qed.

Lemma q_verbose_print l : quiet (verbose_print l).
Proof. intros st H. rewrite verbose_print_unfold. simpl. by rewrite H. Qed.

Lemma q_for_each {A} (l : list A) (body : A → method unit) :
  (∀ x, quiet (body x)) → quiet (for_each l body).
Proof.
  intros Hb. induction l as [|x l IH]; simpl.
  - apply q_ret.
  - apply q_bind; [apply Hb | intros _; apply IH].
Qed.

Ltac q_step :=
  first [ apply q_self_bind; intros ? ?
        | apply q_bind; [|intros ?]
        | apply q_for_each; intros ?
        | apply q_ret | apply q_lift | apply q_get_world
        | apply q_verbose_print
        | apply q_modify_world; intros ?; reflexivity
        | apply q_modify_self; intros ?; reflexivity
        | match goal with
          | H : verbose ?s = false |- context [verbose ?s] => rewrite H
          end
        | match goal with
          | |- quiet (if ?b then _ else _) => destruct b
          | |- quiet (match ?o with Some _ => _ | None => _ end) =>
              destruct o
          end ].

Lemma q_remove_temp_files : quiet remove_temp_files.
Proof. unfold remove_temp_files. repeat q_step. Qed.

Lemma q_create_gif : quiet create_gif.
Proof. unfold create_gif, remove_temp_files. repeat q_step. Qed.

Lemma q_create_images : quiet create_images.
Proof. unfold create_images. repeat q_step. Qed.

Lemma q_generate_dataframe : quiet (generate_dataframe py_float).
Proof. unfold generate_dataframe. repeat q_step. Qed.

Lemma q_set_game f : quiet (set_game f).
Proof. unfold set_game. repeat q_step. Qed.

Lemma q_run_analysis p : quiet (run_analysis py_float p false).
Proof.
  unfold run_analysis. apply q_bind; [apply q_ret|intros _].
  apply q_self_bind; intros s Hs.
  apply q_bind; [destruct (game s); repeat q_step|intros _].
  apply q_bind; [apply q_generate_dataframe|intros _].
  apply q_bind; [apply q_create_images|intros _]. apply q_create_gif.
Qed.

Lemma q_invoke c : silent_call c → quiet (invoke py_float c).
Proof.
  destruct c as [| | | |p [] |f]; simpl; try done; intros _;
    auto using q_create_gif, q_create_images, q_generate_dataframe,
      q_remove_temp_files, q_run_analysis, q_set_game.
Qed.

(** X1. With the verbose flag clear, no method prints: after any sequence
    of calls other than [run_analysis(verbose=True)], returning or raising,
    the console holds what it held and the flag is still clear. *)
Theorem quiet_unless_verbose (cs : list call) (st : state) :
  verbose (self st) = false →
  Forall silent_call cs →
  verbose (self (after_calls py_float cs st)) = false
  ∧ stdout (world (after_calls py_float cs st)) = stdout (world st).
Proof.
  intros Hv Hcs. revert st Hv.
  induction Hcs as [|c cs Hc _ IH]; intros st Hv; [done|].
  simpl. destruct (q_invoke c Hc st Hv) as [Hv' Ho].
  destruct (IH (after_call py_float c st) Hv') as [? ?].
  unfold after_call in *. split; [done|congruence].
Qed.

(** ** Choosing the game *)

Lemma set_game_unfold f st :
  set_game f st =
  let w1 := if verbose (self st)
            then print_line
                   (Line ("Setting game: " +:+ f +:+ " " +:+ nl)) (world st)
            else world st in
  match Game_load (world st) f with
  | Return g =>
      (Return (), {| self := set_game_attr g (self st); world := w1 |})
  | Raise e => (Raise e, {| self := self st; world := w1 |})
  end.
Proof.
  unfold set_game. rewrite method_bind_unfold, verbose_print_unfold.
  rewrite method_bind_unfold. unfold get_world at 1.
  rewrite method_bind_unfold. unfold lift at 1. cbn [self world].
  assert (∀ l, Game_load (print_line l (world st)) f
               = Game_load (world st) f) as Hload by reflexivity.
  destruct (verbose (self st)); rewrite ?Hload;
    by destruct (Game_load (world st) f).
Qed.

(** X2. [set_game] loads the replay at the path and makes it the game
    even when the instance already has one; when loading fails it raises
    the loader's exception and the instance keeps the game it had.  Either
    way the table of an earlier [generate_dataframe] stays in place and no
    file is touched. *)
Theorem set_game_replaces (st : state) (f : string) :
  df (self (set_game f st).2) = df (self st)
  ∧ files (world (set_game f st).2) = files (world st)
  ∧ match Game_load (world st) f with
    | Return g =>
        (set_game f st).1 = Return ()
        ∧ game (self (set_game f st).2) = Some g
    | Raise e =>
        (set_game f st).1 = Raise e
        ∧ game (self (set_game f st).2) = game (self st)
    end.
Proof.
  rewrite set_game_unfold. cbv zeta.
  destruct (Game_load (world st) f) as [g|e]; cbn [fst snd self world];
    destruct (verbose (self st)); by repeat split.
Qed.

(** ** Methods called out of order *)

Lemma create_images_no_table st :
  df (self st) = None →
  create_images st
  = (Raise AttributeError,
     (verbose_print (Line ("Creating plots..." +:+ nl)) st).2).
Proof.
  intros Hd. unfold create_images.
  rewrite method_bind_unfold, verbose_print_unfold.
  rewrite method_bind_unfold. unfold get_self at 1. simpl.
  rewrite method_bind_unfold. unfold lift at 1. simpl. by rewrite Hd.
Qed.

(** X3. A method called before its input exists fails on the attribute
    access: [generate_dataframe] on an instance without game and
    [create_images] on an instance without table raise [AttributeError];
    no table is stored, no file is written and the clock has not moved. *)
Theorem methods_need_their_inputs (st : state) :
  (game (self st) = None →
     (generate_dataframe py_float st).1 = Raise AttributeError
     ∧ df (self (generate_dataframe py_float st).2) = df (self st)
     ∧ files (world (generate_dataframe py_float st).2) = files (world st))
  ∧ (df (self st) = None →
     (create_images st).1 = Raise AttributeError
     ∧ files (world (create_images st).2) = files (world st)
     ∧ clock (world (create_images st).2) = clock (world st)).
Proof.
  split.
  - intros Hg. rewrite generate_dataframe_unfold, Hg. cbn.
    by destruct (verbose (self st)).
  - intros Hd. rewrite (create_images_no_table st Hd).
    rewrite verbose_print_unfold. cbn.
    by destruct (verbose (self st)).
Qed.

(** ** Which exception the extractor raises *)

Lemma read_frame_fault frame :
  match frame_fault frame with
  | Some e => read_frame frame = Raise e
  | None => ∃ a, read_frame frame = Return a
  end.
Proof.
  unfold frame_fault, read_frame, port, subscript.
  destruct (ports frame !! 2) as [[p1|]|]; simpl; try done.
  destruct (ports frame !! 3) as [[p2|]|]; simpl; try done.
  destruct (damage (pre (leader p1))) as [d1|]; simpl; try done.
  destruct (damage (pre (leader p2))) as [d2|]; simpl; try done.
  by eexists.
Qed.

Lemma mapM_first_Raise {A B} (f : A → outcome B) pre x post e :
  Forall (λ y, ∃ b, f y = Return b) pre →
  f x = Raise e →
  mapM f (pre ++ x :: post)%list = Raise e.
Proof.
  intros Hpre Hx. induction Hpre as [|y pre [b Hb] _ IH]; simpl.
  - by rewrite Hx.
  - by rewrite Hb, IH.
Qed.

(** X4. The exception of [generate_dataframe] is that of the first frame
    the loop cannot read: a slot 2 or 3 out of range gives [IndexError], an
    empty slot [AttributeError], a missing damage [TypeError].  It is raised
    whatever the position texts of this and of the other frames are, since
    no position is parsed before every frame has been read; the table the
    instance had stays in place. *)
Theorem first_unreadable_frame_decides
    (st : state) (g : Game) (before after : list Frame) (frame : Frame)
    (e : exn) :
  game (self st) = Some g →
  frames g = (before ++ frame :: after)%list →
  Forall (λ f, frame_fault f = None) before →
  frame_fault frame = Some e →
  (generate_dataframe py_float st).1 = Raise e
  ∧ df (self (generate_dataframe py_float st).2) = df (self st)
  ∧ (e = IndexError ∨ e = AttributeError ∨ e = TypeError).
Proof.
  intros Hg Hframes Hbefore Hfault.
  assert (build_dataframe py_float g = Raise e) as Hbuild.
  { unfold build_dataframe. rewrite Hframes.
    rewrite (mapM_first_Raise read_frame before frame after e); [done| |].
    - eapply Forall_impl; [exact Hbefore|]. intros f Hf.
      pose proof (read_frame_fault f) as H. by rewrite Hf in H.
    - pose proof (read_frame_fault frame) as H. by rewrite Hfault in H. }
  rewrite generate_dataframe_unfold, Hg, Hbuild. cbn.
  repeat split; try done.
  unfold frame_fault in Hfault. repeat case_match; naive_solver.
Qed.

Lemma read_frame_same_participants f1 f2 :
  same_participants f1 f2 → read_frame f1 = read_frame f2.
Proof.
  intros [H2 H3]. unfold read_frame, port, subscript. by rewrite H2, H3.
Qed.

(** X5. The table depends on slots 2 and 3 of the frames only: two replays
    whose frames agree on these two slots give the same outcome of the
    extraction, the same table or the same exception, whatever their other
    slots hold. *)
Theorem only_slots_2_and_3_are_read (g1 g2 : Game) :
  Forall2 same_participants (frames g1) (frames g2) →
  build_dataframe py_float g1 = build_dataframe py_float g2.
Proof.
  intros H. unfold build_dataframe.
  assert (mapM read_frame (frames g1) = mapM read_frame (frames g2)) as ->;
    [|done].
  induction H as [|f1 f2 l1 l2 Hf _ IH]; [done|].
  cbn [mapM]. simpl. by rewrite (read_frame_same_participants f1 f2 Hf), IH.
Qed.

(** ** How the assembler ends *)

Lemma is_file_true w p :
  is_file w p = true ↔ is_dir w p = false ∧ is_Some (files w !! p).
Proof.
  unfold is_file. rewrite andb_true_iff, negb_true_iff, bool_decide_eq_true.
  done.
Qed.

Lemma image_open_image w p :
  is_file w p = true → is_image_at w p = true →
  ∃ frames, image_open w p = Return frames.
Proof.
  intros [Hdir [f Hf]]%is_file_true. unfold is_image_at, is_image, image_open.
  rewrite Hdir, Hf. destruct (data f); intros; try done; by eexists.
Qed.

Lemma image_open_not_image w p :
  is_file w p = true → is_image_at w p = false →
  image_open w p = Raise UnidentifiedImageError.
Proof.
  intros [Hdir [f Hf]]%is_file_true. unfold is_image_at, is_image, image_open.
  rewrite Hdir, Hf. by destruct (data f).
Qed.

Lemma mapM_image_open_all w (l : list string) :
  Forall (λ p, is_file w p = true) l →
  Forall (λ p, is_image_at w p = true) l →
  ∃ frames, mapM (image_open w) l = Return frames
            ∧ length frames = length l.
Proof.
  induction l as [|p l IH]; intros Hfile Himg.
  - by exists [].
  - apply Forall_cons in Hfile as [Hp Hfile], Himg as [Hi Himg].
    destruct (IH Hfile Himg) as (frames & Hmap & Hlen).
    destruct (image_open_image w p Hp Hi) as [first Hfirst].
    exists (first :: frames). split.
    + apply mapM_Return. constructor; [done|by apply mapM_Return].
    + simpl. by rewrite Hlen.
Qed.

Lemma mapM_image_open_some w (l : list string) :
  Forall (λ p, is_file w p = true) l →
  Exists (λ p, is_image_at w p = false) l →
  mapM (image_open w) l = Raise UnidentifiedImageError.
Proof.
  induction l as [|p l IH]; intros Hfile Hex; [by inversion Hex|].
  apply Forall_cons in Hfile as [Hp Hfile]. cbn [mapM].
  destruct (is_image_at w p) eqn:Hi.
  - destruct (image_open_image w p Hp Hi) as [first ->].
    apply Exists_cons in Hex as [Hbad|Hex]; [congruence|].
    simpl. by rewrite IH.
  - by rewrite image_open_not_image.
Qed.

(** X6. How [create_gif] ends when no [*.png] entry of the temporary
    directory is itself a directory.  With no entry it raises [IndexError],
    with an entry that is not an image [UnidentifiedImageError]; in both
    cases it has written no file and removed none.  Otherwise it writes the
    animation and runs the cleanup, which ends the call with
    [IsADirectoryError] when some visible entry of [Temp_images] is a
    directory: the animation has been written all the same.  The instance is
    never changed. *)
Theorem create_gif_outcomes (st : state) :
  plainly_named st = true →
  Forall (λ p, is_file (world st) p = true)
    (glob (temp_images_dir (self st)) ".png" (world st)) →
  (glob (temp_images_dir (self st)) ".png" (world st) = [] →
     (create_gif st).1 = Raise IndexError
     ∧ files (world (create_gif st).2) = files (world st)
     ∧ clock (world (create_gif st).2) = clock (world st))
  ∧ (Exists (λ p, is_image_at (world st) p = false)
       (glob (temp_images_dir (self st)) ".png" (world st)) →
     (create_gif st).1 = Raise UnidentifiedImageError
     ∧ files (world (create_gif st).2) = files (world st)
     ∧ clock (world (create_gif st).2) = clock (world st))
  ∧ (glob (temp_images_dir (self st)) ".png" (world st) ≠ [] →
     Forall (λ p, is_image_at (world st) p = true)
       (glob (temp_images_dir (self st)) ".png" (world st)) →
     (create_gif st).1
     = (if cleanup_blocked (world st) then Raise IsADirectoryError
        else Return ())
     ∧ is_Some (files (world (create_gif st).2) !! gif_path (self st))
     ∧ clock (world (create_gif st).2) = S (clock (world st)))
  ∧ self (create_gif st).2 = self st.
Proof.
  intros _ Hfiles.
  set (images := glob (temp_images_dir (self st)) ".png" (world st)) in *.
  set (order := sorted_by_mtime (world st) images).
  assert (order ≡ₚ images) as Hperm by apply merge_sort_Permutation.
  assert (Forall (λ p, is_file (world st) p = true) order) as Hfiles'.
  { by rewrite Hperm. }
  split; [|split; [|split]].
  - intros Hempty. rewrite create_gif_unfold. cbv zeta.
    rewrite glob_say, sorted_by_mtime_say, image_open_say. fold images.
    rewrite Hempty.
    assert (mapM (image_open (world st)) (sorted_by_mtime (world st) [])
            = Return []) as -> by reflexivity.
    cbv beta iota. unfold subscript. cbn [lookup list_lookup].
    cbn [fst snd self world]. by rewrite !files_say, !clock_say.
  - intros Hex. rewrite create_gif_unfold. cbv zeta.
    rewrite glob_say, sorted_by_mtime_say, image_open_say.
    fold images. fold order.
    rewrite mapM_image_open_some; [|done|by rewrite Hperm].
    cbn [fst snd self world]. by rewrite !files_say, !clock_say.
  - intros Hne Hall.
    destruct (mapM_image_open_all (world st) order) as (frames & Hopen & Hlen);
      [done|by rewrite Hperm|].
    destruct frames as [|first rest].
    { simpl in Hlen. symmetry in Hlen. apply nil_length_inv in Hlen.
      rewrite Hlen in Hperm. by apply Permutation_nil_l in Hperm. }
    destruct (create_gif_written st first rest Hopen)
      as (Hret & _ & Hclock & Hgif & _).
    split; [done|]. split; [|done]. rewrite Hgif. by eexists.
  - apply ks_create_gif.
Qed.

(** ** The cleanup *)

Lemma not_blocked w p :
  cleanup_blocked w = false → p ∈ glob "Temp_images" "" w →
  is_dir w p = false.
Proof.
  unfold cleanup_blocked. intros Hno Hp.
  destruct (is_dir w p) eqn:Hdir; [|done].
  rewrite <-Hno. symmetry. apply existsb_exists. exists p.
  split; [|done]. by apply list_elem_of_In.
Qed.

(** A world in which every entry of [Temp_images] that an unblocked cleanup
    removes is gone, and nothing has appeared in [Temp_images], has no
    visible entry there. *)
Lemma glob_emptied w w' :
  cleanup_blocked w = false →
  (∀ p f, below "Temp_images" p = true →
     files w' !! p = Some f → files w !! p = Some f) →
  (∀ p, p ∈ glob "Temp_images" "" w → files w' !! p = None) →
  glob "Temp_images" "" w' = [].
Proof.
  intros Hno Hsub Hgone. apply elem_of_nil_inv.
  intros p (name & key & -> & Hv & [f Hf] & He)%elem_of_glob.
  pose proof (entry_in_below _ _ _ He) as Hkey.
  pose proof (Hsub key f Hkey Hf) as Hf'.
  assert ("Temp_images" +:+ "/" +:+ name ∈ glob "Temp_images" "" w) as Hin.
  { apply elem_of_glob. exists name, key. by rewrite Hf'. }
  pose proof (not_blocked w _ Hno Hin) as Hdir.
  apply entry_in_Some in He as (_ & _ & [->|[rest ->]]).
  - rewrite (Hgone _ Hin) in Hf. done.
  - assert (is_dir w ("Temp_images" +:+ "/" +:+ name) = true); [|congruence].
    apply is_dir_true. right. eexists. split; [by eexists|].
    apply below_spec. by exists rest.
Qed.

(** X7. In a world whose paths are in normal form, [remove_temp_files]
    ends with [IsADirectoryError] when some visible entry of [Temp_images]
    is a directory, and returns otherwise.  Either way it leaves the
    instance as it was, creates nothing and touches no path that is not a
    visible entry of [Temp_images]: entries whose name starts with a dot are
    kept, and so is everything inside a subdirectory.  When it returns,
    [Temp_images] has no visible entry left, and a second call returns
    without changing anything. *)
Theorem remove_temp_files_cleans (st : state) :
  tidy (world st) = true →
  (remove_temp_files st).1
  = (if cleanup_blocked (world st) then Raise IsADirectoryError
     else Return ())
  ∧ self (remove_temp_files st).2 = self st
  ∧ clock (world (remove_temp_files st).2) = clock (world st)
  ∧ (∀ p, p ∉ glob "Temp_images" "" (world st) →
       files (world (remove_temp_files st).2) !! p = files (world st) !! p)
  ∧ (∀ p f, files (world (remove_temp_files st).2) !! p = Some f →
       files (world st) !! p = Some f)
  ∧ (∀ name, hidden name = true →
       "Temp_images/" +:+ name ∉ glob "Temp_images" "" (world st))
  ∧ (∀ p q, p ∈ glob "Temp_images" "" (world st) →
       below p q = true → q ∉ glob "Temp_images" "" (world st))
  ∧ (cleanup_blocked (world st) = false →
     glob "Temp_images" "" (world (remove_temp_files st).2) = []
     ∧ remove_temp_files (remove_temp_files st).2
       = (Return (), (remove_temp_files st).2)).
Proof.
  intros _.
  destruct (remove_temp_files_spec st)
    as (Hret & Hself & Hclock & Hother & Hgone).
  split; [done|]. split; [done|]. split; [done|]. split; [done|].
  assert (∀ p f, files (world (remove_temp_files st).2) !! p = Some f →
    files (world st) !! p = Some f) as Hsub.
  { intros p f. rewrite remove_temp_files_unfold. cbn [snd world].
    apply remove_each_sub. }
  split; [done|]. split; [|split].
  - intros name Hh (name' & _ & Heq & Hv & _)%elem_of_glob.
    change ("Temp_images/" +:+ name) with ("Temp_images" +:+ "/" +:+ name)
      in Heq.
    apply (inj (String.app "Temp_images")) in Heq.
    apply (inj (String.app "/")) in Heq. subst name'.
    unfold visible in Hv. by rewrite Hh in Hv.
  - intros p q Hp Hb Hq.
    pose proof (glob_entries_apart _ _ _ _ _ Hp Hq). congruence.
  - intros Hno.
    assert (glob "Temp_images" "" (world (remove_temp_files st).2) = [])
      as Hempty.
    { apply (glob_emptied (world st)); [done| |by apply Hgone].
      intros p f _. apply Hsub. }
    split; [done|].
    rewrite (remove_temp_files_unfold (remove_temp_files st).2), Hempty.
    cbn [remove_each fst snd]. by destruct (remove_temp_files st).2.
Qed.

(** ** A whole run *)

Lemma getmtime_files_eq w w' p :
  files w = files w' → getmtime w p = getmtime w' p.
Proof. intros H. unfold getmtime. by rewrite H. Qed.

Lemma cleanup_blocked_files_eq w w' :
  files w = files w' → cleanup_blocked w = cleanup_blocked w'.
Proof.
  intros H. apply cleanup_blocked_agree. intros p _. by rewrite H.
Qed.

Lemma half_of_even n : Nat.even n = true → 2 * (n / 2) = n.
Proof.
  intros [m ->]%Nat.even_spec.
  rewrite (Nat.mul_comm 2 m), Nat.div_mul by done. lia.
Qed.

Lemma StronglySorted_seq a n : StronglySorted lt (seq a n).
Proof.
  revert a. induction n as [|n IH]; intros a; simpl; constructor.
  - apply IH.
  - apply Forall_forall. intros x [Hx _]%elem_of_seq. lia.
Qed.

Lemma StronglySorted_filter_lt (P : nat → Prop) `{∀ x, Decision (P x)}
    (l : list nat) :
  StronglySorted lt l → StronglySorted lt (filter P l).
Proof.
  induction 1 as [|x l Hsorted IH Hall]; [constructor|].
  rewrite filter_cons. destruct (decide (P x)); [|done].
  constructor; [done|].
  apply Forall_forall. intros y [_ Hy]%list_elem_of_filter.
  rewrite Forall_forall in Hall. by apply Hall.
Qed.

Lemma StronglySorted_even_rows N : StronglySorted lt (even_rows N).
Proof. apply StronglySorted_filter_lt, StronglySorted_seq. Qed.

Lemma StronglySorted_on {A} (R R' : relation A) (l : list A) :
  (∀ x y, x ∈ l → y ∈ l → R x y → R' x y) →
  StronglySorted R l → StronglySorted R' l.
Proof.
  intros HR. induction 1 as [|x l Hsorted IH Hall]; constructor.
  - apply IH. intros y z Hy Hz. apply HR; by right.
  - apply Forall_forall. intros y Hy. rewrite Forall_forall in Hall.
    apply HR; [by left|by right|by apply Hall].
Qed.

Lemma Forall_exists_Forall2 {A B} (P : A → B → Prop) (l : list A) :
  (∀ x, x ∈ l → ∃ y, P x y) → ∃ k, Forall2 P l k.
Proof.
  induction l as [|x l IH]; intros Hl.
  - exists []. constructor.
  - destruct (Hl x) as [y Hy]; [by left|].
    destruct IH as [k Hk]. { intros z Hz. apply Hl. by right. }
    exists (y :: k). by constructor.
Qed.

(** What the renderer leaves in a directory that had no [*.png] entry. *)
Lemma rendered_image_entries st d N :
  df (self st) = Some d → table_shape N d →
  glob (temp_images_dir (self st)) ".png" (world st) = [] →
  ∀ p, p ∈ glob (temp_images_dir (self st)) ".png"
             (world (create_images st).2)
       ↔ p ∈ image_path (temp_images_dir (self st)) <$> even_rows N.
Proof.
  intros Hd Hshape Hempty p.
  destruct (create_images_rendered st d N Hd Hshape)
    as (_ & _ & _ & Hnew & Hold).
  set (dir := temp_images_dir (self st)) in *.
  rewrite list_elem_of_fmap. split.
  - intros (name & key & -> & Hv & Hfile & He)%elem_of_glob.
    destruct (decide (key ∈ written_paths dir N)) as [Hp|Hp].
    + apply elem_of_written_paths in Hp as (row & Hrow & Heven & ->).
      rewrite entry_in_image_path in He. injection He as <-.
      exists row. split; [done|]. by apply elem_of_even_rows.
    + rewrite (Hold key (unwritten_path _ _ _ Hp)) in Hfile.
      assert (dir +:+ "/" +:+ name ∈ glob dir ".png" (world st)) as Hin.
      { apply elem_of_glob. by exists name, key. }
      rewrite Hempty in Hin. by apply not_elem_of_nil in Hin.
  - intros (row & -> & Hin).
    apply elem_of_even_rows in Hin as [Hrow Heven].
    pose proof (name_in_image_path dir row) as (Hne & Hplain & _)%name_in_Some.
    apply (glob_lists_file dir ".png" _ (pretty row +:+ ".png"));
      [done|done|apply visible_image_name|].
    destruct (Hnew row Hrow Heven) as (c & _ & Hf).
    unfold image_path in Hf. rewrite Hf. by eexists.
Qed.

(** The rendered images are files, not directories. *)
Lemma rendered_image_is_file st d N row :
  df (self st) = Some d → table_shape N d →
  glob (temp_images_dir (self st)) ".png" (world st) = [] →
  row < N → Nat.even row = true →
  is_dir (world (create_images st).2)
    (image_path (temp_images_dir (self st)) row) = false.
Proof.
  intros Hd Hshape Hempty Hrow Heven.
  destruct (create_images_rendered st d N Hd Hshape)
    as (_ & _ & _ & Hnew & Hold).
  pose proof (rendered_image_entries st d N Hd Hshape Hempty) as Hentries.
  set (dir := temp_images_dir (self st)) in *.
  set (w3 := world (create_images st).2) in *.
  destruct (is_dir w3 (image_path dir row)) eqn:Hdir; [|done]. exfalso.
  apply is_dir_true in Hdir as [(f & Hf & Hdata)|(key & Hkey & Hb)].
  - destruct (Hnew row Hrow Heven) as (c & _ & Hc).
    rewrite Hc in Hf. injection Hf as <-. done.
  - pose proof (name_in_image_path dir row) as (Hne & Hplain & _)%name_in_Some.
    destruct (decide (key ∈ written_paths dir N)) as [Hp|Hp].
    + assert (below (image_path dir row) key = false); [|congruence].
      apply (glob_entries_apart dir ".png" w3); apply Hentries.
      * apply list_elem_of_fmap. exists row. split; [done|].
        by apply elem_of_even_rows.
      * apply elem_of_written_paths in Hp as (row' & ? & ? & ->).
        apply list_elem_of_fmap. exists row'. split; [done|].
        by apply elem_of_even_rows.
    + rewrite (Hold key (unwritten_path _ _ _ Hp)) in Hkey.
      assert (image_path dir row ∈ glob dir ".png" (world st)) as Hin.
      { apply elem_of_glob. exists (pretty row +:+ ".png"), key.
        split; [done|]. split; [apply visible_image_name|]. split; [done|].
        apply below_spec in Hb as [rest ->].
        apply entry_in_Some. split; [done|]. split; [done|]. right.
        by exists rest. }
      rewrite Hempty in Hin. by apply not_elem_of_nil in Hin.
Qed.

(** After the renderer has run on a directory without [*.png] entries, the
    modification times order the images by row. *)
Lemma rendered_images_in_row_order st d N :
  df (self st) = Some d → table_shape N d →
  glob (temp_images_dir (self st)) ".png" (world st) = [] →
  sorted_by_mtime (world (create_images st).2)
    (glob (temp_images_dir (self st)) ".png" (world (create_images st).2))
  = image_path (temp_images_dir (self st)) <$> even_rows N.
Proof.
  intros Hd Hshape Hempty.
  destruct (create_images_rendered st d N Hd Hshape)
    as (_ & _ & _ & Hnew & Hold).
  pose proof (rendered_image_entries st d N Hd Hshape Hempty) as Hentries.
  set (dir := temp_images_dir (self st)) in *.
  set (w3 := world (create_images st).2) in *.
  assert (∀ row, row ∈ even_rows N →
    getmtime w3 (image_path dir row) = clock (world st) + row / 2) as Hm.
  { intros row [Hrow Heven]%elem_of_even_rows.
    destruct (Hnew row Hrow Heven) as (c & _ & Hl).
    unfold getmtime. by rewrite Hl. }
  assert (glob dir ".png" w3 ≡ₚ image_path dir <$> even_rows N) as Hperm.
  { apply NoDup_Permutation.
    - apply NoDup_glob.
    - apply NoDup_fmap_2; [apply image_path_inj|].
      apply NoDup_filter, NoDup_seq.
    - done. }
  apply (StronglySorted_unique_strong (mtime_le w3)).
  - intros p q Hp Hq Hpq Hqp.
    unfold sorted_by_mtime in Hp. rewrite merge_sort_Permutation, Hperm in Hp.
    apply list_elem_of_fmap in Hp as (i & -> & Hi).
    apply list_elem_of_fmap in Hq as (j & -> & Hj).
    unfold mtime_le in Hpq, Hqp. rewrite (Hm i Hi), (Hm j Hj) in Hpq, Hqp.
    apply elem_of_even_rows in Hi as [_ Hi], Hj as [_ Hj].
    apply half_of_even in Hi, Hj. f_equal. lia.
  - apply StronglySorted_merge_sort; apply _.
  - apply (StronglySorted_fmap _
      (λ i j, i ∈ even_rows N ∧ j ∈ even_rows N ∧ i < j)).
    + intros i j (Hi & Hj & Hij). unfold mtime_le.
      rewrite (Hm i Hi), (Hm j Hj).
      assert (i / 2 ≤ j / 2); [|lia].
      apply Nat.Div0.div_le_mono. lia.
    + eapply StronglySorted_on; [|apply StronglySorted_even_rows].
      intros i j Hi Hj Hij. done.
  - unfold sorted_by_mtime. by rewrite merge_sort_Permutation.
Qed.

Lemma same_directory (a b x y : string) :
  has_char "/" a = false → has_char "/" b = false →
  a +:+ "/" +:+ x = b +:+ "/" +:+ y → a = b.
Proof.
  intros Ha Hb H. apply (f_equal first_component) in H.
  by rewrite !first_component_app in H.
Qed.

(** Rendering into a directory that is a plain name, without [*.png]
    entries, puts no directory among the visible entries of
    [Temp_images]. *)
Lemma cleanup_after_rendering st d N :
  df (self st) = Some d → table_shape N d →
  has_char "/" (temp_images_dir (self st)) = false →
  glob (temp_images_dir (self st)) ".png" (world st) = [] →
  cleanup_blocked (world st) = false →
  cleanup_blocked (world (create_images st).2) = false.
Proof.
  intros Hd Hshape Hplain Hempty Hno.
  destruct (create_images_rendered st d N Hd Hshape)
    as (_ & _ & _ & Hnew & Hold).
  set (dir := temp_images_dir (self st)) in *.
  set (w3 := world (create_images st).2) in *.
  destruct (decide (dir = "Temp_images")) as [Hdir|Hdir].
  - destruct (cleanup_blocked w3) eqn:Hblocked; [|done]. exfalso.
    apply existsb_exists in Hblocked as (p & Hp%list_elem_of_In & Hpdir).
    assert (∀ key, is_Some (files w3 !! key) →
      key ∈ written_paths dir N ∨ files w3 !! key = files (world st) !! key)
      as Hkeys.
    { intros key _. destruct (decide (key ∈ written_paths dir N)); [by left|].
      right. by apply Hold, unwritten_path. }
    assert (∀ key, key ∈ written_paths dir N →
      below p key = false) as Hwritten.
    { intros key (row & Hrow & Heven & ->)%elem_of_written_paths.
      apply (glob_entries_apart "Temp_images" "" w3); [done|].
      rewrite <-Hdir.
      pose proof (name_in_image_path dir row)
        as (Hne & Hpl & _)%name_in_Some.
      apply (glob_lists_file dir "" _ (pretty row +:+ ".png"));
        [done|done|apply (visible_any ".png"), visible_image_name|].
      destruct (Hnew row Hrow Heven) as (c & _ & Hf).
      unfold image_path in Hf. rewrite Hf. by eexists. }
    apply elem_of_glob in Hp as (name & key & -> & Hv & Hkey & He).
    pose proof He as (Hne & Hpl & _)%entry_in_Some.
    assert ("Temp_images" +:+ "/" +:+ name ∈ glob "Temp_images" "" (world st)
            ∧ is_dir (world st) ("Temp_images" +:+ "/" +:+ name) = true)
      as [Hin Hisdir].
    { apply is_dir_true in Hpdir as [(f & Hf & Hdata)|(key' & Hkey' & Hb)].
      - destruct (Hkeys ("Temp_images" +:+ "/" +:+ name)) as [Hw|Hsame];
          [by eexists| |].
        + apply elem_of_written_paths in Hw as (row & Hrow & Heven & Hw).
          destruct (Hnew row Hrow Heven) as (c & _ & Hc).
          rewrite <-Hw, Hf in Hc. injection Hc as ->. done.
        + rewrite Hsame in Hf. split.
          * apply glob_lists_file; first [done|by eexists].
          * apply is_dir_true. left. by exists f.
      - destruct (Hkeys key' Hkey') as [Hw|Hsame].
        + rewrite (Hwritten key' Hw) in Hb. done.
        + rewrite Hsame in Hkey'. split.
          * apply elem_of_glob. exists name, key'.
            split; [done|]. split; [done|]. split; [done|].
            apply below_spec in Hb as [rest ->].
            apply entry_in_Some. split; [done|]. split; [done|]. right.
            by exists rest.
          * apply is_dir_true. right. by exists key'. }
    by rewrite (not_blocked _ _ Hno Hin) in Hisdir.
  - rewrite <-Hno. apply cleanup_blocked_agree. intros p Hp.
    apply Hold. intros row Hrow Heven ->.
    apply below_spec in Hp as [rest Hp]. unfold image_path in Hp.
    by apply same_directory in Hp.
Qed.

(** Rendering into a directory without [*.png] entries and assembling:
    the animation shows the even rows in row order. *)
Lemma render_then_assemble st d N :
  df (self st) = Some d → table_shape N d → 0 < N →
  has_char "/" (temp_images_dir (self st)) = false →
  glob (temp_images_dir (self st)) ".png" (world st) = [] →
  cleanup_blocked (world st) = false →
  ∃ charts,
    charts_of (figure_size (self st)) d (even_rows N) charts
    ∧ length charts = (N + 1) / 2
    ∧ ((create_images;; create_gif) st).1 = Return ()
    ∧ self ((create_images;; create_gif) st).2 = self st
    ∧ files (world ((create_images;; create_gif) st).2) !! gif_path (self st)
      = Some {| mtime := clock (world st) + (N + 1) / 2;
                data := Gif (gif_frames charts) 30 0 |}
    ∧ glob "Temp_images" "" (world ((create_images;; create_gif) st).2) = [].
Proof.
  intros Hd Hshape HN Hplain Hempty Hno.
  pose proof (rendered_images_in_row_order st d N Hd Hshape Hempty) as Horder.
  pose proof (cleanup_after_rendering st d N Hd Hshape Hplain Hempty Hno)
    as Hno3.
  destruct (create_images_rendered st d N Hd Hshape)
    as (Hret & Hself & Hclock & Hnew & Hold).
  destruct (Forall_exists_Forall2
    (λ row c, render (figure_size (self st)) d row = Return c
              ∧ still_at (world (create_images st).2)
                  (image_path (temp_images_dir (self st)) row) c)
    (even_rows N)) as [charts Hcharts].
  { intros row [Hrow Heven]%elem_of_even_rows.
    destruct (Hnew row Hrow Heven) as (c & ? & ?). exists c.
    split; [done|]. split; [by eapply rendered_image_is_file|by eexists]. }
  assert (length charts = (N + 1) / 2) as Hlen.
  { apply Forall2_length in Hcharts. by rewrite <-Hcharts, length_even_rows. }
  exists charts. split.
  { eapply Forall2_impl; [exact Hcharts|]. by intros row c [? _]. }
  split; [done|].
  rewrite method_bind_unfold.
  destruct (create_images st) as [o st3] eqn:Hst3. simpl in *. subst o.
  rewrite <-Hself in Horder.
  destruct (create_gif_of_stills st3
    (image_path (temp_images_dir (self st)) <$> even_rows N) charts)
    as (Hgif & Hself' & _ & Hfile & _ & Hsub & Hgone).
  - by rewrite <-Hself.
  - apply Forall2_fmap_l. eapply Forall2_impl; [exact Hcharts|].
    by intros row c [_ ?].
  - intros ->. simpl in Hlen.
    pose proof (Nat.div_mod_eq (N + 1) 2).
    pose proof (Nat.mod_upper_bound (N + 1) 2). lia.
  - rewrite Hno3 in Hgif. split; [done|]. split; [congruence|]. split.
    + by rewrite <-Hself, Hfile, Hclock.
    + apply (glob_emptied (world st3)); [done| |by apply Hgone].
      intros p f Hp. apply Hsub. intros ->.
      by rewrite gif_path_outside in Hp.
Qed.

Lemma pipeline_unfold st g :
  game (self st) = Some g →
  pipeline py_float st =
  match build_dataframe py_float g with
  | Return d =>
      (create_images;; create_gif)
        (generate_dataframe py_float st).2
  | Raise e => (Raise e, (generate_dataframe py_float st).2)
  end.
Proof.
  intros Hg. unfold pipeline. rewrite method_bind_unfold.
  rewrite generate_dataframe_unfold, Hg. cbv zeta.
  by destruct (build_dataframe py_float g).
Qed.

Lemma generate_dataframe_world st :
  files (world (generate_dataframe py_float st).2) = files (world st)
  ∧ clock (world (generate_dataframe py_float st).2) = clock (world st).
Proof.
  rewrite generate_dataframe_unfold. cbv zeta.
  destruct (game (self st)) as [g|];
    [destruct (build_dataframe py_float g)|];
    cbn [snd world]; by destruct (verbose (self st)).
Qed.

Lemma pipeline_success st g :
  game (self st) = Some g →
  Forall (frame_ok py_float) (frames g) →
  0 < length (frames g) →
  has_char "/" (temp_images_dir (self st)) = false →
  glob (temp_images_dir (self st)) ".png" (world st) = [] →
  cleanup_blocked (world st) = false →
  ∃ d charts,
    build_dataframe py_float g = Return d
    ∧ charts_of (figure_size (self st)) d
        (even_rows (length (frames g))) charts
    ∧ length charts = (length (frames g) + 1) / 2
    ∧ (pipeline py_float st).1 = Return ()
    ∧ self (pipeline py_float st).2 = set_df d (self st)
    ∧ files (world (pipeline py_float st).2) !! gif_path (self st)
      = Some {| mtime := clock (world st) + (length (frames g) + 1) / 2;
                data := Gif (gif_frames charts) 30 0 |}
    ∧ glob "Temp_images" "" (world (pipeline py_float st).2) = [].
Proof.
  intros Hg Hok HN Hplain Hempty Hno.
  destruct (build_dataframe_total g Hok) as [d Hd].
  pose proof (build_dataframe_shape g d Hd) as Hshape.
  destruct (generate_dataframe_world st) as [Hfiles Hclock].
  assert (self (generate_dataframe py_float st).2 = set_df d (self st))
    as Hself.
  { rewrite generate_dataframe_unfold, Hg, Hd. reflexivity. }
  destruct (render_then_assemble (generate_dataframe py_float st).2 d
              (length (frames g)))
    as (charts & Hcharts & Hlen & Hret & Hself' & Hfin & Hclean).
  { by rewrite Hself. }
  { done. }
  { done. }
  { by rewrite Hself. }
  { rewrite Hself. cbn [set_df temp_images_dir].
    by rewrite (glob_files_eq _ _ _ (world st)). }
  { by rewrite (cleanup_blocked_files_eq _ (world st)). }
  rewrite Hself in Hcharts, Hself', Hfin. cbn [set_df figure_size] in Hcharts.
  exists d, charts. rewrite (pipeline_unfold st g Hg), Hd.
  repeat split; try done. by rewrite <-Hclock.
Qed.

(** X8. A whole run.  The instance has a game with at least one frame,
    every frame with both participants, readable positions and damages; the
    temporary directory is a plain name and has no [*.png] entry
    beforehand, and no visible entry of [Temp_images] is a directory.  Then
    [run_analysis] returns; it stores the table of the game and leaves at
    [Output/title.gif] the animation of the charts of the even rows
    [0, 2, 4, ...], one chart per two frames of the replay rounded up, each
    written as a frame unless the encoder finds it the same as the chart
    before it; afterwards [Temp_images] has no visible entry.  The
    charts come in row order because each image is written at a later time
    of the clock than the one before it. *)
Theorem run_analysis_makes_the_animation
    (st : state) (g : Game) (p : string) (v : bool) :
  game (self st) = Some g →
  Forall (frame_ok py_float) (frames g) →
  0 < length (frames g) →
  plainly_named st = true →
  has_char "/" (temp_images_dir (self st)) = false →
  glob (temp_images_dir (self st)) ".png" (world st) = [] →
  cleanup_blocked (world st) = false →
  ∃ d charts,
    build_dataframe py_float g = Return d
    ∧ charts_of (figure_size (self st)) d
        (even_rows (length (frames g))) charts
    ∧ length charts = (length (frames g) + 1) / 2
    ∧ (run_analysis py_float p v st).1 = Return ()
    ∧ df (self (run_analysis py_float p v st).2) = Some d
    ∧ files (world (run_analysis py_float p v st).2) !! gif_path (self st)
      = Some {| mtime := clock (world st) + (length (frames g) + 1) / 2;
                data := Gif (gif_frames charts) 30 0 |}
    ∧ (no_repeat charts = true → gif_frames charts = charts)
    ∧ glob "Temp_images" "" (world (run_analysis py_float p v st).2) = [].
Proof.
  intros Hg Hok HN _ Hplain Hempty Hno. rewrite run_analysis_unfold. cbv zeta.
  destruct v; cbn [self world set_verbose game]; rewrite Hg.
  - destruct (pipeline_success
      {| self := set_verbose true (self st); world := world st |} g)
      as (d & charts & ? & ? & ? & ? & Hs & ? & ?); try done.
    exists d, charts. rewrite Hs.
    destruct (gif_frames_spec charts) as (_ & _ & _ & ?).
    by repeat split.
  - destruct (pipeline_success st g)
      as (d & charts & ? & ? & ? & ? & Hs & ? & ?); try done.
    exists d, charts. rewrite Hs.
    destruct (gif_frames_spec charts) as (_ & _ & _ & ?).
    by repeat split.
Qed.

Lemma create_gif_no_images st :
  glob (temp_images_dir (self st)) ".png" (world st) = [] →
  (create_gif st).1 = Raise IndexError
  ∧ files (world (create_gif st).2) = files (world st).
Proof.
  intros Hempty. rewrite create_gif_unfold. cbv zeta.
  rewrite glob_say, sorted_by_mtime_say, image_open_say, Hempty.
  assert (mapM (image_open (world st)) (sorted_by_mtime (world st) [])
          = Return []) as -> by reflexivity.
  cbv beta iota. unfold subscript. cbn [lookup list_lookup fst snd world].
  by rewrite !files_say.
Qed.

(** X9. A replay without frames.  [run_analysis] stores the empty table,
    renders nothing and, with no [*.png] entry in the temporary directory,
    fails in the assembler with [IndexError]; no file has been written or
    removed. *)
Theorem empty_replay_raises_IndexError
    (st : state) (g : Game) (p : string) (v : bool) :
  game (self st) = Some g →
  frames g = [] →
  plainly_named st = true →
  glob (temp_images_dir (self st)) ".png" (world st) = [] →
  (run_analysis py_float p v st).1 = Raise IndexError
  ∧ (index <$> df (self (run_analysis py_float p v st).2)) = Some []
  ∧ files (world (run_analysis py_float p v st).2) = files (world st).
Proof.
  intros Hg Hframes _ Hempty.
  assert (∀ st0, game (self st0) = Some g →
    glob (temp_images_dir (self st0)) ".png" (world st0) = [] →
    (pipeline py_float st0).1 = Raise IndexError
    ∧ (index <$> df (self (pipeline py_float st0).2)) = Some []
    ∧ files (world (pipeline py_float st0).2) = files (world st0)) as Hpipe.
  { clear st Hg Hempty. intros st Hg Hempty.
    assert (∃ d, build_dataframe py_float g = Return d ∧ index d = [])
      as (d & Hd & Hindex).
    { unfold build_dataframe. rewrite Hframes. by eexists. }
    pose proof (build_dataframe_shape g d Hd) as Hshape.
    rewrite Hframes in Hshape. cbn [length] in Hshape.
    destruct (generate_dataframe_world st) as [Hfiles _].
    assert (self (generate_dataframe py_float st).2 = set_df d (self st))
      as Hself.
    { rewrite generate_dataframe_unfold, Hg, Hd. reflexivity. }
    rewrite (pipeline_unfold st g Hg), Hd.
    set (st2 := (generate_dataframe py_float st).2) in *.
    destruct (create_images_rendered st2 d 0) as (Hret & Hs3 & _ & _ & Hold);
      [by rewrite Hself|done|].
    rewrite method_bind_unfold.
    destruct (create_images st2) as [o st3] eqn:Hst3. simpl in *. subst o.
    assert (files (world st3) = files (world st)) as Hf3.
    { rewrite <-Hfiles. apply map_eq. intros q. apply Hold.
      intros row Hrow. lia. }
    destruct (create_gif_no_images st3) as [Hraise Hf4].
    { rewrite Hs3, Hself. cbn [set_df temp_images_dir].
      by rewrite (glob_files_eq _ _ _ (world st)). }
    pose proof (ks_create_gif st3) as Hs4.
    split; [done|]. split; [|congruence].
    by rewrite Hs4, Hs3, Hself, <-Hindex. }
  rewrite run_analysis_unfold. cbv zeta.
  destruct v; cbn [self world set_verbose game]; rewrite Hg.
  - by apply (Hpipe {| self := set_verbose true (self st);
                       world := world st |}).
  - by apply Hpipe.
Qed.

(** X10. A run stops at the first stage that fails.  When the extraction
    raises, [run_analysis] raises the same exception: the table the
    instance had stays in place, nothing is rendered, no file is written
    or removed and the clock has not moved. *)
Theorem failed_extraction_stops_the_run
    (st : state) (g : Game) (e : exn) (p : string) (v : bool) :
  game (self st) = Some g →
  build_dataframe py_float g = Raise e →
  (run_analysis py_float p v st).1 = Raise e
  ∧ df (self (run_analysis py_float p v st).2) = df (self st)
  ∧ files (world (run_analysis py_float p v st).2) = files (world st)
  ∧ clock (world (run_analysis py_float p v st).2) = clock (world st).
Proof.
  intros Hg Hd. rewrite run_analysis_unfold. cbv zeta.
  destruct v; cbn [self world set_verbose game]; rewrite Hg;
    rewrite (pipeline_unfold _ g) by done; rewrite Hd;
    rewrite generate_dataframe_unfold; cbn [self world set_verbose game];
    rewrite Hg, Hd; cbn; repeat split;
    by destruct (verbose (self st)).
Qed.

(** ** Rendering twice *)

(** X11. Rendering the same table a second time overwrites each image in
    place: the run returns, every path holds the same content as after the
    first run (the same chart under the same name, no new file), and only
    the modification times of the images are renewed. *)
Theorem second_render_overwrites (st : state) (d : DataFrame) (N : nat) :
  df (self st) = Some d →
  table_shape N d →
  (create_images (create_images st).2).1 = Return ()
  ∧ (∀ p, data <$> files (world (create_images (create_images st).2).2) !! p
          = data <$> files (world (create_images st).2) !! p)
  ∧ (∀ row, row < N → Nat.even row = true →
       mtime <$> files (world (create_images (create_images st).2).2)
                   !! image_path (temp_images_dir (self st)) row
       = Some (clock (world (create_images st).2) + row / 2)).
Proof.
  intros Hd Hshape.
  destruct (create_images_rendered st d N Hd Hshape)
    as (_ & Hself & _ & Hnew & Hold).
  destruct (create_images_rendered (create_images st).2 d N)
    as (Hret & _ & _ & Hnew' & Hold'); [by rewrite Hself|done|].
  rewrite Hself in Hnew', Hold'.
  split; [done|]. split.
  - intros p.
    destruct (decide (p ∈ written_paths (temp_images_dir (self st)) N))
      as [Hp|Hp].
    + apply elem_of_written_paths in Hp as (row & Hrow & Heven & ->).
      destruct (Hnew row Hrow Heven) as (c & Hc & ->).
      destruct (Hnew' row Hrow Heven) as (c' & Hc' & ->).
      simpl. congruence.
    + by rewrite (Hold' p (unwritten_path _ _ _ Hp)).
  - intros row Hrow Heven.
    by destruct (Hnew' row Hrow Heven) as (c' & _ & ->).
Qed.

(** ** Reading back a printed position *)

Lemma string_app_nil_r (s : string) : s +:+ "" = s.
Proof.
  induction s as [|a s IH]; [done|]. by rewrite string_app_cons, IH.
Qed.

Lemma remove_char_app c (s t : string) :
  remove_char c (s +:+ t) = remove_char c s +:+ remove_char c t.
Proof.
  induction s as [|a s IH]; [done|].
  rewrite string_app_cons. simpl. rewrite IH.
  by destruct (Ascii.eqb a c).
Qed.

Lemma remove_char_absent c (s : string) :
  has_char c s = false → remove_char c s = s.
Proof.
  induction s as [|a s IH]; [done|]. simpl.
  intros [Ha Hs]%orb_false_iff. by rewrite Ha, IH.
Qed.

Lemma prefix_comma_space a (s : string) :
  Ascii.eqb a "," = false → String.prefix ", " (String a s) = false.
Proof.
  intros Ha%Ascii.eqb_neq.
  change (String.prefix ", " (String a s))
    with (if ascii_dec "," a then String.prefix " " s else false).
  destruct (ascii_dec "," a) as [Heq|]; [|done].
  exfalso. by apply Ha.
Qed.

Lemma prefix_at_separator (s : string) :
  String.prefix ", " (String "," (String " " s)) = true.
Proof.
  change (String.prefix ", " (String "," (String " " s)))
    with (if ascii_dec "," ","
          then if ascii_dec " " " " then String.prefix "" s else false
          else false).
  destruct (ascii_dec "," ","); [|done].
  destruct (ascii_dec " " " "); [|done]. by destruct s.
Qed.

Lemma split_go_no_comma cur (s : string) :
  has_char "," s = false → split_go ", " 0 cur s = [cur +:+ s].
Proof.
  revert cur. induction s as [|a s IH]; intros cur H.
  - by rewrite string_app_nil_r.
  - simpl in H. apply orb_false_iff in H as [Ha Hs].
    cbn [split_go]. rewrite (prefix_comma_space a s Ha), (IH _ Hs).
    by rewrite string_app_assoc.
Qed.

Lemma split_go_pair cur (x y : string) :
  has_char "," x = false → has_char "," y = false →
  split_go ", " 0 cur (x +:+ ", " +:+ y) = [cur +:+ x; y].
Proof.
  intros Hx Hy. revert cur. induction x as [|a x IH]; intros cur.
  - rewrite string_app_nil, string_app_nil_r.
    change (", " +:+ y) with (String "," (String " " y)).
    cbn [split_go]. rewrite prefix_at_separator.
    change (String.length ", " - 1) with 1. cbn [split_go].
    by rewrite (split_go_no_comma "" y Hy), string_app_nil.
  - simpl in Hx. apply orb_false_iff in Hx as [Ha Hx].
    rewrite string_app_cons. cbn [split_go].
    rewrite (prefix_comma_space a _ Ha), (IH Hx).
    by rewrite string_app_assoc.
Qed.

Lemma clean_app (s t : string) : clean (s +:+ t) = clean s +:+ clean t.
Proof. unfold clean. by rewrite !remove_char_app. Qed.

Lemma clean_absent (s : string) :
  has_char "(" s = false → has_char ")" s = false → clean s = s.
Proof.
  intros H1 H2. unfold clean. by rewrite (remove_char_absent "(" s H1),
    (remove_char_absent ")" s H2).
Qed.

(** X12. The text the parser library prints for a position, [(x, y)] with
    [x] and [y] free of brackets and commas, is read back as exactly the
    two components [x] and [y]; so the extractor accepts it exactly when
    both convert to floats, and the row gets those two floats. *)
Theorem printed_position_is_read_back (x y : string) (fx fy : float) :
  has_char "(" x = false → has_char ")" x = false → has_char "," x = false →
  has_char "(" y = false → has_char ")" y = false → has_char "," y = false →
  split ", " (clean ("(" +:+ x +:+ ", " +:+ y +:+ ")")) = [x; y]
  ∧ (reads_as py_float ("(" +:+ x +:+ ", " +:+ y +:+ ")") fx fy
     ↔ py_float x = Some fx ∧ py_float y = Some fy).
Proof.
  intros Hx1 Hx2 Hx3 Hy1 Hy2 Hy3.
  assert (split ", " (clean ("(" +:+ x +:+ ", " +:+ y +:+ ")")) = [x; y])
    as Hsplit.
  { rewrite !clean_app, (clean_absent x), (clean_absent y) by done.
    change (clean "(") with "". change (clean ")") with "".
    change (clean ", ") with ", ".
    rewrite string_app_nil, string_app_nil_r.
    unfold split. by rewrite (split_go_pair "" x y Hx3 Hy3). }
  split; [done|]. unfold reads_as. rewrite Hsplit. split.
  - intros (c0 & c1 & rest & [= <- <- <-] & H0 & H1). done.
  - intros [H0 H1]. by exists x, y, [].
Qed.

(** ** The example at the end of the module *)

Lemma kv_pipeline : keeps_verbose (pipeline py_float).
Proof.
  unfold pipeline.
  apply kv_bind; [apply kv_generate_dataframe|intros _].
  apply kv_bind; [apply kv_create_images|intros _]. apply kv_create_gif.
Qed.

(** X13. Loading the module runs the example, here on a world whose paths
    are in normal form: a verbose instance with the default directory
    analyses the replay at the fixed path.  When that path is missing, is a
    directory or does not hold a replay, the run ends with the loader's
    exception and no file is touched.  When it holds a replay with at least
    one frame, all frames readable, [Temp_images] has no [*.png] entry,
    none of its visible entries is a directory and the output path is not
    a directory, the run returns and leaves at
    [Output/zain_jmook_g4_Shine2022_GFs.gif] the animation of one chart per
    two frames of the replay rounded up, in the order of the frames, and no
    visible entry in [Temp_images]. *)
Theorem script_runs_the_example (w : World) :
  tidy w = true →
  verbose (self (script py_float w).2) = true
  ∧ match Game_load w example_replay with
    | Raise e =>
        (script py_float w).1 = Raise e
        ∧ game (self (script py_float w).2) = None
        ∧ files (world (script py_float w).2) = files w
    | Return g =>
        game (self (script py_float w).2) = Some g
        ∧ (Forall (frame_ok py_float) (frames g) →
           0 < length (frames g) →
           glob "Temp_images" ".png" w = [] →
           cleanup_blocked w = false →
           is_dir w "Output/zain_jmook_g4_Shine2022_GFs.gif" = false →
           (script py_float w).1 = Return ()
           ∧ (∃ d charts,
                build_dataframe py_float g = Return d
                ∧ charts_of (8, 8) d (even_rows (length (frames g))) charts
                ∧ length charts = (length (frames g) + 1) / 2
                ∧ files (world (script py_float w).2)
                    !! "Output/zain_jmook_g4_Shine2022_GFs.gif"
                  = Some {| mtime := clock w + (length (frames g) + 1) / 2;
                            data := Gif (gif_frames charts) 30 0 |})
           ∧ glob "Temp_images" "" (world (script py_float w).2) = [])
    end.
Proof.
  intros _. unfold script. rewrite run_analysis_unfold. cbv zeta.
  cbn [self world init set_verbose game].
  destruct (Game_load w example_replay) as [g|e]; [|done].
  split; [by apply kv_pipeline|].
  split; [by rewrite pipeline_game|].
  intros Hok HN Hempty Hno _.
  destruct (pipeline_success
    {| self := set_game_attr g
         (set_verbose true
            (init None (Some example_title) default_temp_images_dir
               default_figure_size false));
       world := w |} g)
    as (d & charts & Hd & Hcharts & Hlen & Hret & _ & Hgif & Hclean);
    try done.
  split; [done|]. split; [|done]. by exists d, charts.
Qed.

End Properties.

#[global] Existing Instance exact_platform.

(** * Closed instances *)

(** C4, as stated, fails: a position text with three components does not
    make the extractor fail; the row is built from the first two. *)
Lemma three_components_accepted :
  length (split ", " (clean "(1.00, 2.00, 3.00)")) = 3
  ∧ (generate_dataframe float_of_decimal
       (state_of (init (Some game_three_components) None "Temp_images"
                    (8, 8) false) empty_world)).1 = Return ()
  ∧ (P1_x <$> df (self (generate_dataframe float_of_decimal
       (state_of (init (Some game_three_components) None "Temp_images"
                    (8, 8) false) empty_world)).2))
    = Some [S754_finite false 4503599627370496 (-52)]
  ∧ (P1_y <$> df (self (generate_dataframe float_of_decimal
       (state_of (init (Some game_three_components) None "Temp_images"
                    (8, 8) false) empty_world)).2))
    = Some [S754_finite false 4503599627370496 (-51)].
Proof. vm_compute. repeat split. Qed.

Lemma game_four_ok : Forall (frame_ok float_of_decimal) (frames game_four).
Proof.
  repeat constructor; unfold frame_ok, extracts, reads_as;
    repeat eexists; reflexivity.
Defined.

Lemma frames_become_rows_witness :
  ∃ d,
    (generate_dataframe float_of_decimal
       (state_of scatter_four empty_world)).1 = Return ()
    ∧ df (self (generate_dataframe float_of_decimal
                  (state_of scatter_four empty_world)).2) = Some d
    ∧ index d = seq 0 (length (frames game_four))
    ∧ table_shape (length (frames game_four)) d
    ∧ ∀ i frame, frames game_four !! i = Some frame →
        ∃ x1 y1 x2 y2 d1 d2,
          extracts float_of_decimal frame x1 y1 x2 y2 d1 d2
          ∧ row_is d i x1 y1 x2 y2 d1 d2.
Proof.
  apply (frames_become_rows float_of_decimal
           (state_of scatter_four empty_world) game_four).
  - reflexivity.
  - exact game_four_ok.
Defined.

Lemma extraction_reads_two_components_witness :
  ((generate_dataframe float_of_decimal
      (state_of scatter_four empty_world)).1 = Return ()
   ↔ Forall (frame_ok float_of_decimal) (frames game_four))
  ∧ (∀ d, df (self (generate_dataframe float_of_decimal
                      (state_of scatter_four empty_world)).2) = Some d →
      (generate_dataframe float_of_decimal
         (state_of scatter_four empty_world)).1 = Return () →
      ∀ i frame, frames game_four !! i = Some frame →
        ∃ x1 y1 x2 y2 d1 d2,
          extracts float_of_decimal frame x1 y1 x2 y2 d1 d2
          ∧ row_is d i x1 y1 x2 y2 d1 d2)
  ∧ (raises (generate_dataframe float_of_decimal
               (state_of scatter_four empty_world)).1 →
      df (self (generate_dataframe float_of_decimal
                  (state_of scatter_four empty_world)).2)
      = df (self (state_of scatter_four empty_world))).
Proof.
  apply (extraction_reads_two_components float_of_decimal
           (state_of scatter_four empty_world) game_four).
  reflexivity.
Defined.

Lemma verbose_is_monotone_witness :
  verbose (self (state_of scatter_verbose empty_world)) = true
  ∧ verbose (self (run_analysis float_of_decimal "replay.slp" false
                     (state_of scatter_verbose empty_world)).2) = true.
Proof.
  split; [reflexivity|].
  apply (verbose_is_monotone float_of_decimal
           (state_of scatter_verbose empty_world)).
  reflexivity.
Defined.







(** ** Cleanup and the configured directory *)

(** C2 at a concrete run.  The cleanup leaves every path that is not a
    visible entry of [Temp_images] as it was, whatever the configured
    directory, and when it returns it has removed every visible entry of
    [Temp_images].  So with the default directory a run that returns leaves
    no entry in it, while with [temp_images_dir="Scratch"] the run returns
    as well, but the two images it rendered are still in [Scratch]. *)
Theorem custom_directory_not_emptied :
  (∀ st p,
     p ∉ glob "Temp_images" "" (world st) →
     files (world (remove_temp_files st).2) !! p = files (world st) !! p)
  ∧ (∀ st p,
       (remove_temp_files st).1 = Return () →
       p ∈ glob "Temp_images" "" (world st) →
       files (world (remove_temp_files st).2) !! p = None)
  ∧ (run_analysis float_of_decimal "" false
     (state_of scatter_four empty_world)).1 = Return ()
  ∧ listdir "Temp_images"
      (world (run_analysis float_of_decimal "" false
                (state_of scatter_four empty_world)).2) = ∅
  ∧ (run_analysis float_of_decimal "" false
       (state_of scatter_custom_dir empty_world)).1 = Return ()
  ∧ temp_images_dir
      (self (run_analysis float_of_decimal "" false
               (state_of scatter_custom_dir empty_world)).2) = "Scratch"
  ∧ listdir "Scratch"
      (world (run_analysis float_of_decimal "" false
                (state_of scatter_custom_dir empty_world)).2)
    = {[ "Scratch/0.png"; "Scratch/2.png" ]}.
Proof.
  split.
  { intros st p. by apply remove_temp_files_spec. }
  split.
  { intros st p Hret.
    destruct (remove_temp_files_spec st) as (Hout & _ & _ & _ & Hgone).
    apply Hgone. rewrite Hret in Hout.
    by destruct (cleanup_blocked (world st)). }
  vm_compute. repeat split.
Qed.

(** ** Instances of the further properties *)

Lemma quiet_unless_verbose_witness :
  verbose (self (after_calls float_of_decimal
                   [CallGenerateDataframe; CallCreateImages;
                    CallRunAnalysis "replay.slp" false]
                   (state_of scatter_four empty_world))) = false
  ∧ stdout (world (after_calls float_of_decimal
                     [CallGenerateDataframe; CallCreateImages;
                      CallRunAnalysis "replay.slp" false]
                     (state_of scatter_four empty_world))) = [].
Proof.
  apply (quiet_unless_verbose float_of_decimal
           [CallGenerateDataframe; CallCreateImages;
            CallRunAnalysis "replay.slp" false]
           (state_of scatter_four empty_world)).
  - reflexivity.
  - repeat constructor.
Defined.

Lemma first_unreadable_frame_decides_witness :
  (generate_dataframe float_of_decimal
     (state_of (scatter_of game_short_frame) empty_world)).1
  = Raise IndexError.
Proof.
  apply (first_unreadable_frame_decides float_of_decimal
           (state_of (scatter_of game_short_frame) empty_world)
           game_short_frame
           [frame_of "(0.00, 0.00)" "(10.00, 10.00)" float_zero float_zero]
           [] {| ports := [None; None] |} IndexError).
  - reflexivity.
  - reflexivity.
  - repeat constructor.
  - reflexivity.
Defined.

Lemma only_slots_2_and_3_are_read_witness :
  build_dataframe float_of_decimal game_four
  = build_dataframe float_of_decimal game_four_crowded.
Proof.
  apply (only_slots_2_and_3_are_read float_of_decimal
           game_four game_four_crowded).
  repeat constructor.
Defined.

Lemma run_analysis_makes_the_animation_witness :
  ∃ d charts,
    build_dataframe float_of_decimal game_four = Return d
    ∧ charts_of (8, 8) d (even_rows 4) charts
    ∧ length charts = 2
    ∧ (run_analysis float_of_decimal "" false
         (state_of scatter_four empty_world)).1 = Return ()
    ∧ df (self (run_analysis float_of_decimal "" false
                  (state_of scatter_four empty_world)).2) = Some d
    ∧ files (world (run_analysis float_of_decimal "" false
                      (state_of scatter_four empty_world)).2)
        !! "Output/match.gif"
      = Some {| mtime := 2; data := Gif (gif_frames charts) 30 0 |}
    ∧ (no_repeat charts = true → gif_frames charts = charts)
    ∧ glob "Temp_images" ""
        (world (run_analysis float_of_decimal "" false
                  (state_of scatter_four empty_world)).2) = [].
Proof.
  apply (run_analysis_makes_the_animation float_of_decimal
           (state_of scatter_four empty_world) game_four "" false).
  - reflexivity.
  - exact game_four_ok.
  - simpl. lia.
  - vm_compute; reflexivity.
  - reflexivity.
  - reflexivity.
  - reflexivity.
Defined.

Lemma empty_replay_raises_IndexError_witness :
  (run_analysis float_of_decimal "" false
     (state_of (scatter_of game_empty) empty_world)).1 = Raise IndexError
  ∧ (index <$> df (self (run_analysis float_of_decimal "" false
                           (state_of (scatter_of game_empty)
                              empty_world)).2)) = Some []
  ∧ files (world (run_analysis float_of_decimal "" false
                    (state_of (scatter_of game_empty) empty_world)).2) = ∅.
Proof.
  apply (empty_replay_raises_IndexError float_of_decimal
           (state_of (scatter_of game_empty) empty_world) game_empty
           "" false); first [reflexivity | vm_compute; reflexivity].
Defined.

Lemma create_gif_outcomes_witness :
  (create_gif state_two_stills).1 = Return ()
  ∧ is_Some (files (world (create_gif state_two_stills).2)
               !! "Output/match.gif")
  ∧ clock (world (create_gif state_two_stills).2) = 7.
Proof.
  assert (glob "Temp_images" ".png" world_two_stills
          = ["Temp_images/2.png"; "Temp_images/0.png"]) as Hglob
    by (vm_compute; reflexivity).
  destruct (create_gif_outcomes state_two_stills) as (_ & _ & Hok & _).
  - vm_compute; reflexivity.
  - change (temp_images_dir (self state_two_stills)) with "Temp_images".
    change (world state_two_stills) with world_two_stills.
    rewrite Hglob. repeat constructor.
  - apply Hok.
    + change (temp_images_dir (self state_two_stills)) with "Temp_images".
      change (world state_two_stills) with world_two_stills.
      by rewrite Hglob.
    + change (temp_images_dir (self state_two_stills)) with "Temp_images".
      change (world state_two_stills) with world_two_stills.
      rewrite Hglob. repeat constructor.
Defined.

Lemma remove_temp_files_cleans_witness :
  (remove_temp_files (state_of scatter_four world_nested)).1
  = Raise IsADirectoryError
  ∧ (remove_temp_files (state_of scatter_four world_two_stills)).1
    = Return ()
  ∧ glob "Temp_images" ""
      (world (remove_temp_files (state_of scatter_four world_two_stills)).2)
    = [].
Proof.
  destruct (remove_temp_files_cleans (state_of scatter_four world_nested))
    as (Hnested & _); [vm_compute; reflexivity|].
  destruct (remove_temp_files_cleans (state_of scatter_four world_two_stills))
    as (Hret & _ & _ & _ & _ & _ & _ & Hclean); [vm_compute; reflexivity|].
  split; [exact Hnested|]. split; [exact Hret|].
  by apply Hclean.
Defined.

Lemma script_runs_the_example_witness :
  verbose (self (script float_of_decimal world_with_replay).2) = true
  ∧ (script float_of_decimal world_with_replay).1 = Return ()
  ∧ glob "Temp_images" ""
      (world (script float_of_decimal world_with_replay).2) = [].
Proof.
  destruct (script_runs_the_example float_of_decimal world_with_replay)
    as [Hv Hrun]; [vm_compute; reflexivity|].
  change (Game_load world_with_replay example_replay)
    with (Return game_four) in Hrun.
  destruct Hrun as [_ Hrun].
  destruct Hrun as (Hret & _ & Hclean).
  - exact game_four_ok.
  - simpl. lia.
  - vm_compute; reflexivity.
  - vm_compute; reflexivity.
  - vm_compute; reflexivity.
  - exact (conj Hv (conj Hret Hclean)).
Defined.

Lemma failed_extraction_stops_the_run_witness :
  (run_analysis float_of_decimal "" false
     (state_of (scatter_of game_one_component) empty_world)).1
  = Raise IndexError
  ∧ df (self (run_analysis float_of_decimal "" false
                (state_of (scatter_of game_one_component) empty_world)).2)
    = None
  ∧ files (world (run_analysis float_of_decimal "" false
                    (state_of (scatter_of game_one_component)
                       empty_world)).2) = ∅
  ∧ clock (world (run_analysis float_of_decimal "" false
                    (state_of (scatter_of game_one_component)
                       empty_world)).2) = 0.
Proof.
  apply (failed_extraction_stops_the_run float_of_decimal
           (state_of (scatter_of game_one_component) empty_world)
           game_one_component IndexError "" false).
  - reflexivity.
  - vm_compute. reflexivity.
Defined.

Lemma second_render_overwrites_witness :
  (create_images (create_images state_four).2).1 = Return ()
  ∧ (mtime <$> files (world (create_images (create_images state_four).2).2)
                 !! "Temp_images/2.png") = Some 3.
Proof.
  destruct (second_render_overwrites state_four table_four 4)
    as (Hret & _ & Hmtime).
  - reflexivity.
  - vm_compute. repeat split.
  - split; [exact Hret|]. apply (Hmtime 2); [lia|reflexivity].
Defined.

Lemma printed_position_is_read_back_witness :
  split ", " (clean ("(" +:+ "1.00" +:+ ", " +:+ "-2.50" +:+ ")"))
  = ["1.00"; "-2.50"]
  ∧ (reads_as float_of_decimal
       ("(" +:+ "1.00" +:+ ", " +:+ "-2.50" +:+ ")")
       (S754_finite false 4503599627370496 (-52))
       (S754_finite true 5629499534213120 (-51))
     ↔ float_of_decimal "1.00"
         = Some (S754_finite false 4503599627370496 (-52))
       ∧ float_of_decimal "-2.50"
         = Some (S754_finite true 5629499534213120 (-51))).
Proof.
  apply (printed_position_is_read_back float_of_decimal "1.00" "-2.50");
    reflexivity.
Defined.
